(** * The miner testing sandbox: front-end controller and scoring rules

  A shallow embedding of [src/api/static/js/post-process-2.js] (the page
  controller that loads an untrusted fingerprinting script into a sandboxed
  iframe, waits for one message or a timeout, and submits the hash) and of
  the two-strike scoring rules documented in [docs/TESTING.md].

  Conventions.
  - JavaScript values are the first-order fragment the controller reads:
    primitives and plain objects.  An [Error] object is the plain object
    carrying its [message] property, the only property the source reads.
  - Strings are sequences of code units below 256.
  - Time is a logical clock in milliseconds; a timer whose deadline has been
    reached runs before any message stamped at or after that deadline. *)

From Stdlib Require Import List String Ascii ZArith QArith Qminmax Bool Lia Sorted.
From Stdlib Require DecimalString.
Import ListNotations.

Set Warnings "-register-all".

Open Scope string_scope.
Open Scope list_scope.
Open Scope Z_scope.

(** ** JavaScript values *)

Module JS.

Inductive value : Type :=
| VUndefined
| VNull
| VBool (b : bool)
| VNum (n : Z)
| VStr (s : string)
| VObj (props : list (string * value)).

(** ToBoolean, as used by [if (x)], [!x] and [x && y]. *)
Definition truthy (v : value) : bool :=
  match v with
  | VUndefined | VNull => false
  | VBool b => b
  | VNum n => negb (n =? 0)
  | VStr s => negb (s =? "")%string
  | VObj _ => true
  end.

Fixpoint lookup (k : string) (props : list (string * value)) : value :=
  match props with
  | [] => VUndefined
  | (k', v) :: rest => if (k =? k')%string then v else lookup k rest
  end.

(** [v.k] for a value that is neither [null] nor [undefined]; the keys the
    source reads ([type], [error], [hash], [message]) are own properties of
    objects only. *)
Definition get (v : value) (k : string) : value :=
  match v with
  | VObj props => lookup k props
  | _ => VUndefined
  end.

(** [v === 'literal']. *)
Definition is_string_literal (v : value) (lit : string) : bool :=
  match v with
  | VStr s => (s =? lit)%string
  | _ => false
  end.

(** [typeof v === 'string']. *)
Definition typeof_string (v : value) : bool :=
  match v with
  | VStr _ => true
  | _ => false
  end.

(** [v === null || v === undefined]: reading a property of such a value
    throws a TypeError. *)
Definition nullish (v : value) : bool :=
  match v with
  | VUndefined | VNull => true
  | _ => false
  end.

(** The object produced by [new Error(message)], seen through the one
    property the source reads. *)
Definition error_object (message : string) : value :=
  VObj [("message", VStr message)].

(** The host only ever builds errors with [new Error(arg)], or receives the
    engine's own errors; only [arg] is recorded, the error's message being
    [ToString arg] (the string itself when [arg] is a string). *)
Inductive error : Type :=
| NewError (arg : value)
| HttpError (status : Z)
| EngineError (what : string).

(** Code units removed by [String.prototype.trim] among the code units
    below 256: TAB, LF, VT, FF, CR, SPACE and NO-BREAK SPACE. *)
Definition is_white_space (c : ascii) : bool :=
  let n := nat_of_ascii c in
  ((n =? 9) || (n =? 10) || (n =? 11) || (n =? 12) || (n =? 13)
   || (n =? 32) || (n =? 160))%nat.

Fixpoint trim_start (s : string) : string :=
  match s with
  | EmptyString => EmptyString
  | String c rest => if is_white_space c then trim_start rest else s
  end.

(** Drops the trailing white space: a character is kept unless it is white
    space and everything after it has been dropped. *)
Fixpoint trim_end (s : string) : string :=
  match s with
  | EmptyString => EmptyString
  | String c rest =>
      match trim_end rest with
      | EmptyString => if is_white_space c then EmptyString
                       else String c EmptyString
      | kept => String c kept
      end
  end.

Definition trim (s : string) : string := trim_end (trim_start s).

Fixpoint all_white_space (s : string) : bool :=
  match s with
  | EmptyString => true
  | String c rest => is_white_space c && all_white_space rest
  end.

(** The first, respectively last, code unit of a string that is not empty
    is not white space. *)
Definition starts_clean (s : string) : bool :=
  match s with
  | EmptyString => true
  | String c _ => negb (is_white_space c)
  end.

Fixpoint ends_clean (s : string) : bool :=
  match s with
  | EmptyString => true
  | String c EmptyString => negb (is_white_space c)
  | String _ rest => ends_clean rest
  end.

End JS.

Import JS.

(** ** The host side of one sandbox run: [executeInSandbox] *)

Module Host.

(** Windows that can appear as [event.source].  [SandboxWindow] is
    [sandbox.contentWindow], the window of the page's one sandbox iframe. *)
Inductive window : Type :=
| HostWindow
| SandboxWindow
| OtherWindow (id : nat).

(** [event.source !== sandbox.contentWindow] *)
Definition not_sandbox (w : window) : bool :=
  match w with
  | SandboxWindow => false
  | _ => true
  end.

Inductive promise_state : Type :=
| Pending
| Resolved (v : value)
| Rejected (e : error).

(** The [resolve] and [reject] functions of a promise act once. *)
Definition resolve (v : value) (p : promise_state) : promise_state :=
  match p with
  | Pending => Resolved v
  | _ => p
  end.

Definition reject (e : error) (p : promise_state) : promise_state :=
  match p with
  | Pending => Rejected e
  | _ => p
  end.

Inductive timer_state : Type :=
| Armed (due : Z)
| Cleared
| Fired.

(** What one call of [executeInSandbox] owns: its promise, the timer behind
    [timeoutId], whether [handleMessage] is registered on the window, the
    iframe's [src], and the document's blob URL store (URL number and the
    script spliced into the blob's HTML). *)
Record run_state : Type := mkRun {
  promise : promise_state;
  timeoutId : timer_state;
  listening : bool;
  sandbox_src : option nat;
  url_store : list (nat * string)
}.

Definition timeout_message : string := "Script execution timed out (5s limit)".
Definition timeout_delay : Z := 5000.
Definition result_type : string := "fingerprint-result".

Definition settle (f : promise_state -> promise_state) (st : run_state) : run_state :=
  mkRun (f (promise st)) (timeoutId st) (listening st) (sandbox_src st) (url_store st).

(** [clearTimeout(timeoutId)]: cancels a timer that has not run yet. *)
Definition clearTimeout (st : run_state) : run_state :=
  mkRun (promise st)
        (match timeoutId st with Armed _ => Cleared | t => t end)
        (listening st) (sandbox_src st) (url_store st).

(** [window.removeEventListener('message', handleMessage)] *)
Definition removeEventListener (st : run_state) : run_state :=
  mkRun (promise st) (timeoutId st) false (sandbox_src st) (url_store st).

(** Lines 78-92. *)
Definition handleMessage (st : run_state) (source : window) (data : value) : run_state :=
  if not_sandbox source then st
  else
    let st := removeEventListener (clearTimeout st) in
    if truthy data && is_string_literal (get data "type") result_type then
      if truthy (get data "error")
      then settle (reject (NewError (get data "error"))) st
      else settle (resolve (get data "hash")) st
    else st.

(** The callback given to [setTimeout] (lines 73-75), run by the timer. *)
Definition timer_callback (st : run_state) : run_state :=
  mkRun (reject (NewError (VStr timeout_message)) (promise st))
        Fired (listening st) (sandbox_src st) (url_store st).

Definition fresh_url (store : list (nat * string)) : nat :=
  S (fold_right (fun e m => Nat.max (fst e) m) 0%nat store).

(** The synchronous part of [executeInSandbox], called at time [t0] with the
    document's current blob URL store: arm the timer, register the
    listener, build the blob, create its object URL and point the iframe at
    it (lines 72-155). *)
Definition executeInSandbox (t0 : Z) (store : list (nat * string))
           (fingerprintJs : string) : run_state :=
  let url := fresh_url store in
  mkRun Pending (Armed (t0 + timeout_delay)) true (Some url)
        ((url, fingerprintJs) :: store).

(** The event loop, restricted to what this run can observe. *)
Record event : Type := Message {
  at_time : Z;
  source : window;
  data : value
}.

(** Let the clock reach [t]: a timer that is due runs. *)
Definition advance (t : Z) (st : run_state) : run_state :=
  match timeoutId st with
  | Armed due => if due <=? t then timer_callback st else st
  | _ => st
  end.

Definition dispatch (st : run_state) (e : event) : run_state :=
  let st := advance (at_time e) st in
  if listening st then handleMessage st (source e) (data e) else st.

Definition run_events (st : run_state) (evs : list event) : run_state :=
  fold_left dispatch evs st.

(** The run as seen at time [T]: the events stamped up to [T] have been
    dispatched in order and the clock has reached [T]. *)
Definition state_at (T : Z) (st : run_state) (evs : list event) : run_state :=
  advance T (run_events st (filter (fun e => at_time e <=? T) evs)).

Definition from_sandbox (e : event) : bool := negb (not_sandbox (source e)).

(** The event loop hands events over in the order of their time stamps. *)
Definition chronological (evs : list event) : Prop :=
  StronglySorted (fun a b => at_time a <= at_time b) evs.

Definition is_armed (t : timer_state) : bool :=
  match t with
  | Armed _ => true
  | _ => false
  end.

(** A run that a message of the iframe has ended: no timer left to run, no
    listener left on the window. *)
Definition closed (st : run_state) : Prop :=
  is_armed (timeoutId st) = false /\ listening st = false.

(** No timer is left armed behind a settled promise. *)
Definition timer_spent (st : run_state) : Prop :=
  promise st = Pending \/ is_armed (timeoutId st) = false.

End Host.

Import Host.

(** ** The isolated context: the HTML template of [executeInSandbox]

    The template (lines 97-150) holds two scripts.  The first, a classic
    script, installs the guards; the second, a module script, wraps the
    untrusted text in [try { ... }], checks and calls [runFingerprinting] and
    reports through [window.parent.postMessage].  The untrusted text is a
    parameter: it is described by what it does, not by its syntax. *)

Module Sandbox.

(** What an assignment such as [window.parent = null] does is decided by the
    browser, not by the source: the property can be replaced by the value,
    the assignment can be ignored, or it can throw.  The engine's wording of
    its TypeErrors (on [x.then] for [undefined], for [null] and for a value
    without [then], and on a property of [null]) is the browser's too. *)
Inductive set_effect : Type :=
| Replaced
| Ignored
| Throws.

Record platform : Type := mkPlatform {
  set_parent : set_effect;
  set_top : set_effect;
  then_of_undefined : string;
  then_of_null : string;
  then_not_a_function : string;
  property_of_null : string
}.

(** A global function the script can call to turn text into code. *)
Inductive primitive : Type :=
| Eval
| FunctionConstructor.

Inductive binding : Type :=
| Native
| Throwing (message : string).

(** The part of the iframe's global object the template touches. *)
Record realm : Type := mkRealm {
  eval_binding : binding;
  function_binding : binding;
  parent_ref : option window;
  top_ref : option window
}.

(** A freshly loaded iframe of the host page, itself a top-level page. *)
Definition fresh_realm : realm :=
  mkRealm Native Native (Some HostWindow) (Some HostWindow).

Definition eval_message : string := "eval() is not allowed".
Definition entry_point_message : string :=
  "runFingerprinting() function not found in fingerprinter.js".
Definition result_type_message : string :=
  "runFingerprinting() must return a string".

(** The classic script (lines 102-113): [window.eval] is overwritten, then
    [window.parent = null; window.top = null] run inside [try], any throw
    being swallowed by the empty [catch]. *)
Definition guards (P : platform) (r : realm) : realm :=
  let r := mkRealm (Throwing eval_message) (function_binding r)
                   (parent_ref r) (top_ref r) in
  match set_parent P with
  | Throws => r
  | parent_effect =>
      let r := match parent_effect with
               | Replaced => mkRealm (eval_binding r) (function_binding r)
                                     None (top_ref r)
               | _ => r
               end in
      match set_top P with
      | Replaced => mkRealm (eval_binding r) (function_binding r)
                            (parent_ref r) None
      | _ => r
      end
  end.

(** The untrusted script.  Its top-level statements can post a message
    through one of the two references to the host, call a code-generating
    primitive, or throw; [runFingerprinting] is the binding the template
    finds after them, [None] when [typeof runFingerprinting] is not
    ['function'], and otherwise what a call with no argument does.

    This is a fragment of what a script can do, enough to run the template
    on the scripts named in the properties below.  It leaves out a script
    that changes the realm itself ([window.parent = window.top]), that
    catches its own errors, that posts from inside its entry point or from a
    callback scheduled for later, and a returned object with a [then] of its
    own.  What holds for every script whatever is stated on the host side,
    over the messages that arrive. *)
Inductive reference : Type :=
| ViaParent
| ViaTop.

Inductive action : Type :=
| Post (via : reference) (data : value)
| Invoke (p : primitive)
| Throw (e : value).

Inductive settlement : Type :=
| Fulfils (v : value)
| Rejects (e : value)
| NeverSettles.

(** A returned value is either a promise or a value with no [then] method. *)
Inductive returned : Type :=
| Plain (v : value)
| Promise (s : settlement).

Inductive call : Type :=
| CallThrows (e : value)
| CallReturns (r : returned).

Record script : Type := mkScript {
  parses : bool;
  body : list action;
  runFingerprinting : option call
}.

Inductive completion : Type :=
| Normal
| Abrupt (e : value).

Definition deref (r : realm) (via : reference) : option window :=
  match via with
  | ViaParent => parent_ref r
  | ViaTop => top_ref r
  end.

Definition binding_of (r : realm) (p : primitive) : binding :=
  match p with
  | Eval => eval_binding r
  | FunctionConstructor => function_binding r
  end.

(** Calling a primitive: the native one turns the text into code and
    returns, an overwritten one throws its error. *)
Definition invoke (r : realm) (p : primitive) : completion :=
  match binding_of r p with
  | Native => Normal
  | Throwing message => Abrupt (error_object message)
  end.

(** [window.<via>.postMessage(data, '*')]: a [null] reference throws a
    TypeError; otherwise the message is queued for the host (the only
    window either reference can hold). *)
Definition postMessage (P : platform) (r : realm) (via : reference)
           (data : value) (sent : list value) : completion * list value :=
  match deref r via with
  | Some _ => (Normal, sent ++ [data])
  | None => (Abrupt (error_object (property_of_null P)), sent)
  end.

Fixpoint run_body (P : platform) (r : realm) (acts : list action)
         (sent : list value) : completion * list value :=
  match acts with
  | [] => (Normal, sent)
  | Post via data :: rest =>
      match postMessage P r via data sent with
      | (Normal, sent) => run_body P r rest sent
      | stop => stop
      end
  | Invoke p :: rest =>
      match invoke r p with
      | Normal => run_body P r rest sent
      | Abrupt e => (Abrupt e, sent)
      end
  | Throw e :: _ => (Abrupt e, sent)
  end.

Definition hash_message (result : value) : value :=
  VObj [("type", VStr result_type); ("hash", result)].

Definition error_message (message : value) : value :=
  VObj [("type", VStr result_type); ("error", message)].

(** Both [catch] handlers (lines 136-141 and 142-147):
    [window.parent.postMessage({type, error: error.message}, '*')].  Nothing
    catches what the handler itself throws, on a [null] parent or on reading
    [message] of [null] or [undefined]: then no message leaves. *)
Definition report (P : platform) (r : realm) (e : value) (sent : list value)
  : list value :=
  if nullish e then sent
  else snd (postMessage P r ViaParent (error_message (get e "message")) sent).

(** The [then] callback (lines 126-135). *)
Definition on_result (P : platform) (r : realm) (result : value)
           (sent : list value) : completion * list value :=
  if negb (typeof_string result)
  then (Abrupt (error_object result_type_message), sent)
  else postMessage P r ViaParent (hash_message result) sent.

(** [runFingerprinting().then(...).catch(...)] (lines 126-141), for what the
    call returned. *)
Definition chain (P : platform) (r : realm) (ret : returned) (sent : list value)
  : completion * list value :=
  match ret with
  | Plain v =>
      (Abrupt (error_object (match v with
                             | VUndefined => then_of_undefined P
                             | VNull => then_of_null P
                             | _ => then_not_a_function P
                             end)), sent)
  | Promise (Fulfils v) =>
      match on_result P r v sent with
      | (Normal, sent) => (Normal, sent)
      | (Abrupt e, sent) => (Normal, report P r e sent)
      end
  | Promise (Rejects e) => (Normal, report P r e sent)
  | Promise NeverSettles => (Normal, sent)
  end.

(** The module script (lines 116-148), in the realm the guards left. *)
Definition module_script (P : platform) (r : realm) (s : script) : list value :=
  let attempt :=
    match run_body P r (body s) [] with
    | (Normal, sent) =>
        match runFingerprinting s with
        | None => (Abrupt (error_object entry_point_message), sent)
        | Some (CallThrows e) => (Abrupt e, sent)
        | Some (CallReturns ret) => chain P r ret sent
        end
    | stop => stop
    end in
  match attempt with
  | (Normal, sent) => sent
  | (Abrupt e, sent) => report P r e sent
  end.

(** The messages the host receives from the iframe, in order.  A text that
    does not parse inside the template's [try] block runs nothing. *)
Definition sandbox_posts (P : platform) (s : script) : list value :=
  if parses s then module_script P (guards P fresh_realm) s else [].

(** The browser behaviour the HTML standard describes: [parent] is a
    replaceable attribute of the window, [top] an unforgeable one whose
    assignment a classic script ignores. *)
Definition standard_platform : platform :=
  mkPlatform Replaced Ignored
             "Cannot read properties of undefined (reading 'then')"
             "Cannot read properties of null (reading 'then')"
             "runFingerprinting(...).then is not a function"
             "Cannot read properties of null (reading 'postMessage')".

(** A browser on which neither assignment takes effect. *)
Definition readonly_platform : platform :=
  mkPlatform Ignored Ignored
             "Cannot read properties of undefined (reading 'then')"
             "Cannot read properties of null (reading 'then')"
             "runFingerprinting(...).then is not a function"
             "Cannot read properties of null (reading 'postMessage')".

(** A run of the page on script [s]: the events are those of the event
    loop, and the iframe's messages among them carry, in order, what the
    template and the script posted. *)
Definition delivers (P : platform) (s : script) (evs : list event) : Prop :=
  map data (filter from_sandbox evs) = sandbox_posts P s.

End Sandbox.

Import Sandbox.

(** ** The page controller: [validateInputs], [handleSubmit], [handleResults] *)

Module Page.

(** The texts given to [showStatus]. *)
Inductive status_text : Type :=
| PleaseEnterSessionId        (* 'Please enter a Session ID' *)
| PleaseEnterDeviceLabel      (* 'Please enter a Device Label' *)
| PleaseEnterSessionIdFirst   (* 'Please enter a Session ID first' *)
| LoadingScript               (* 'Loading fingerprinter.js...' *)
| ExecutingScript             (* 'Executing script in sandbox...' *)
| SubmittingFingerprint       (* 'Submitting fingerprint...' *)
| FingerprintCollected (prefix : string)  (* the first 32 code units *)
| FetchingResults             (* 'Fetching results...' *)
| ResultsLoaded               (* 'Results loaded successfully' *)
| ErrorStatus (e : error).    (* 'Error: ' followed by [e.message] *)

(** What the controller does to the world, in order. *)
Inductive effect : Type :=
| ShowStatus (text : status_text) (isError : bool)
| HideStatus
| SubmitButton (disabled : bool)
| ResultsButton (disabled : bool)
| FetchScript
| RunSandbox (fingerprintJs : string)
| PostCollect (session_id device_label : string) (fingerprint_hash : value)
| GetResults (session_id : string)
| SetScore (score : value)
| SetBreakdown (correct collisions fragmentations : value)
| SetDevices (devices : value)
| ShowResultsArea.

(** An HTTP response as the controller reads it; [json] is [None] when the
    body is not JSON. *)
Record response : Type := mkResponse {
  ok : bool;
  status : Z;
  text : string;
  json : option value
}.

(** What the world answers: [None] is a [fetch] that rejects; [sandbox] is
    how the promise of [executeInSandbox] ends for a script text.  Every
    request is given an answer or a failure: a [fetch] whose promise never
    settles (the source sets no timeout on it) is not among these worlds. *)
Record world : Type := mkWorld {
  script_response : option response;
  sandbox : string -> promise_state;
  collect_response : option response;
  results_response : option response
}.

Record page : Type := mkPage {
  sessionIdInput : string;
  deviceLabelInput : string;
  isRunning : bool
}.

Record inputs : Type := mkInputs {
  sessionId : string;
  deviceLabel : string
}.

(** An asynchronous computation: the effects so far and how it ended. *)
Inductive outcome (A : Type) : Type :=
| Done (a : A)
| Thrown (e : error)
| Stuck.

Arguments Done {A} a.
Arguments Thrown {A} e.
Arguments Stuck {A}.

Definition task (A : Type) : Type := list effect * outcome A.

Definition ret {A : Type} (a : A) : task A := ([], Done a).
Definition throw {A : Type} (e : error) : task A := ([], Thrown e).
Definition emit (x : effect) : task unit := ([x], Done tt).

Definition bind {A B : Type} (m : task A) (k : A -> task B) : task B :=
  match m with
  | (log, Done a) => let (log', out) := k a in (log ++ log', out)
  | (log, Thrown e) => (log, Thrown e)
  | (log, Stuck) => (log, Stuck)
  end.

Notation "x <- m ;; k" := (bind m (fun x => k))
  (at level 61, m at next level, right associativity).
Notation "m ;;; k" := (bind m (fun _ => k))
  (at level 61, right associativity).

(** [await p] on a promise that is already described by its final state. *)
Definition await (p : promise_state) : task value :=
  match p with
  | Pending => ([], Stuck)
  | Resolved v => ret v
  | Rejected e => throw e
  end.

Definition fetch_failed : error := EngineError "fetch failed".
Definition body_not_json : error := EngineError "body is not JSON".
Definition property_of_nullish : error := EngineError "property of null or undefined".
Definition substring_missing : error := EngineError "substring is not a function".

(** [!s] for a string. *)
Definition is_empty (s : string) : bool := (s =? "")%string.

(** Lines 40-54. *)
Definition validateInputs (pg : page) : list effect * option inputs :=
  let sessionId := trim (sessionIdInput pg) in
  let deviceLabel := trim (deviceLabelInput pg) in
  if is_empty sessionId then ([ShowStatus PleaseEnterSessionId true], None)
  else if is_empty deviceLabel then ([ShowStatus PleaseEnterDeviceLabel true], None)
  else ([], Some (mkInputs sessionId deviceLabel)).

(** Lines 59-65. *)
Definition fetchFingerprinterJs (w : world) : task string :=
  emit FetchScript ;;;
  match script_response w with
  | None => throw fetch_failed
  | Some r =>
      if negb (ok r) then throw (NewError (VStr "Failed to load fingerprinter.js"))
      else ret (text r)
  end.

(** The error thrown on a response that is not [ok] (lines 174-177 and
    188-191): [error.message || `HTTP ${response.status}`]. *)
Definition response_error (r : response) : error :=
  let error := match json r with
               | Some j => j
               | None => VObj [("message", VStr "Unknown error")]
               end in
  if nullish error then property_of_nullish
  else if truthy (get error "message") then NewError (get error "message")
  else HttpError (status r).

(** Lines 161-180. *)
Definition submitFingerprint (w : world) (sessionId deviceLabel : string)
           (fingerprintHash : value) : task value :=
  emit (PostCollect sessionId deviceLabel fingerprintHash) ;;;
  match collect_response w with
  | None => throw fetch_failed
  | Some r =>
      if negb (ok r) then throw (response_error r)
      else match json r with
           | Some j => ret j
           | None => throw body_not_json
           end
  end.

(** Lines 185-195. *)
Definition fetchResults (w : world) (sessionId : string) : task value :=
  emit (GetResults sessionId) ;;;
  match results_response w with
  | None => throw fetch_failed
  | Some r =>
      if negb (ok r) then throw (response_error r)
      else match json r with
           | Some data => if nullish data then throw property_of_nullish
                          else ret (get data "data")
           | None => throw body_not_json
           end
  end.

(** Lines 200-225.  The devices are handed to the list as they are: the
    values have no arrays, and the failure of [results.devices.map] on a
    truthy value with a positive [length] that is not an array is not
    among the cases. *)
Definition displayResults (results : value) : task unit :=
  if nullish results then throw property_of_nullish
  else
    emit (SetScore (get results "score")) ;;;
    let breakdown := get results "breakdown" in
    if nullish breakdown then throw property_of_nullish
    else
      emit (SetBreakdown (get breakdown "correct") (get breakdown "collisions")
                         (get breakdown "fragmentations")) ;;;
      emit (SetDevices (get results "devices")) ;;;
      emit ShowResultsArea.

(** [fingerprintHash.substring(0, 32)] *)
Definition hash_prefix (fingerprintHash : value) : task string :=
  match fingerprintHash with
  | VStr s => ret (substring 0 32 s)
  | VUndefined | VNull => throw property_of_nullish
  | _ => throw substring_missing
  end.

Definition set_running (b : bool) (pg : page) : page :=
  mkPage (sessionIdInput pg) (deviceLabelInput pg) b.

(** The [try] block of [handleSubmit] (lines 250-264). *)
Definition submit_steps (w : world) (i : inputs) : task unit :=
  emit (ShowStatus LoadingScript false) ;;;
  fingerprintJs <- fetchFingerprinterJs w ;;
  emit (ShowStatus ExecutingScript false) ;;;
  emit (RunSandbox fingerprintJs) ;;;
  fingerprintHash <- await (sandbox w fingerprintJs) ;;
  emit (ShowStatus SubmittingFingerprint false) ;;;
  submitFingerprint w (sessionId i) (deviceLabel i) fingerprintHash ;;;
  prefix <- hash_prefix fingerprintHash ;;
  emit (ShowStatus (FingerprintCollected prefix) false).

(** Lines 239-272.  A handler stuck on a promise that never settles never
    reaches its [finally]. *)
Definition handleSubmit (pg : page) (w : world) : page * list effect :=
  if isRunning pg then (pg, [])
  else
    match validateInputs pg with
    | (shown, None) => (pg, shown)
    | (shown, Some i) =>
        let start := shown ++ [SubmitButton true; HideStatus] in
        let finally := [SubmitButton false] in
        match submit_steps w i with
        | (log, Done _) => (set_running false pg, start ++ log ++ finally)
        | (log, Thrown e) =>
            (set_running false pg,
             start ++ log ++ [ShowStatus (ErrorStatus e) true] ++ finally)
        | (log, Stuck) => (set_running true pg, start ++ log)
        end
    end.

(** The [try] block of [handleResults] (lines 289-293). *)
Definition results_steps (w : world) (sessionId : string) : task unit :=
  emit (ShowStatus FetchingResults false) ;;;
  results <- fetchResults w sessionId ;;
  displayResults results ;;;
  emit (ShowStatus ResultsLoaded false).

(** Lines 277-300. *)
Definition handleResults (pg : page) (w : world) : list effect :=
  let sessionId := trim (sessionIdInput pg) in
  if is_empty sessionId then [ShowStatus PleaseEnterSessionIdFirst true]
  else
    let start := [ResultsButton true; HideStatus] in
    let finally := [ResultsButton false] in
    match results_steps w sessionId with
    | (log, Done _) => start ++ log ++ finally
    | (log, Thrown e) => start ++ log ++ [ShowStatus (ErrorStatus e) true] ++ finally
    | (log, Stuck) => start ++ log
    end.

(** Requests that reach the network or the sandbox. *)
Definition is_request (x : effect) : bool :=
  match x with
  | FetchScript | RunSandbox _ | PostCollect _ _ _ | GetResults _ => true
  | _ => false
  end.

(** A request carries the trimmed session id (and device label) of the
    page. *)
Definition sends_trimmed (pg : page) (x : effect) : Prop :=
  match x with
  | PostCollect session_id device_label _ =>
      session_id = trim (sessionIdInput pg) /\
      device_label = trim (deviceLabelInput pg)
  | GetResults session_id => session_id = trim (sessionIdInput pg)
  | _ => True
  end.

End Page.

Import Page.

(** ** The scoring engine

    The engine runs on the server and is not among the sources; only its
    rules are documented ([docs/TESTING.md], "Scoring Rules"). *)

Module Scoring.

(** Modelled from the spec: the record type of the store, missing from the
    sources: "DeviceRecord: {device_label: string, fingerprint_hash: string}". *)
Record DeviceRecord : Type := mkRecord {
  device_label : string;
  fingerprint_hash : string
}.

(** Modelled from the spec: sets of labels and of hashes are missing from the
    sources; "device identity = exact string equality", "hash identity =
    exact string equality".  A set is a list without repetition. *)
Definition distinct (l : list string) : list string := nodup string_dec l.

(** Modelled from the spec: the server-side grouping step is missing from the
    sources.  "Group records by device_label; for each device compute its
    hash set = set of distinct fingerprint_hash values it submitted." *)
Definition devices (records : list DeviceRecord) : list string :=
  distinct (map device_label records).

(** Modelled from the spec: "hash set = set of distinct fingerprint_hash
    values it submitted", the per-device grouping missing from the sources. *)
Definition hash_set (records : list DeviceRecord) (device : string) : list string :=
  distinct (map fingerprint_hash
                (filter (fun r => (device_label r =? device)%string) records)).

(** Modelled from the spec: the fragmentation table is missing from the
    sources.  "Fragmentation score per device, by |hash set|: 1 -> 1.0;
    2 -> 0.7; >=3 -> 0.0."  A device of the session has at least one hash;
    the table's last line is used for every other size. *)
Definition fragmentation_score (size : nat) : Q :=
  match size with
  | 1%nat => 1%Q
  | 2%nat => (7 # 10)%Q
  | _ => 0%Q
  end.

(** Modelled from the spec: the global hash map is missing from the sources.
    "Build a global map from hash value -> set of distinct device labels
    that ever submitted that hash ... overlapDevices = the largest
    (|label set for that hash| - 1) over the device's own hashes." *)
Definition label_set (records : list DeviceRecord) (hash : string) : list string :=
  distinct (map device_label
                (filter (fun r => (fingerprint_hash r =? hash)%string) records)).

(** Modelled from the spec: "overlapDevices = the largest (|label set for
    that hash| - 1) over the device's own hashes", missing from the sources. *)
Definition overlapDevices (records : list DeviceRecord) (device : string) : nat :=
  fold_right Nat.max 0%nat
             (map (fun h => (List.length (label_set records h) - 1)%nat)
                  (hash_set records device)).

(** Modelled from the spec: the collision rule is missing from the sources.
    "if overlapDevices >= 2 ... the device's final point value is forced to
    0.0 regardless of fragmentation.  Else if overlapDevices == 1, subtract
    0.25 from the device's fragmentation score, floored at 0.0.  Else no
    penalty." *)
Definition collision_rule (overlap : nat) (fragmentation : Q) : Q :=
  if (2 <=? overlap)%nat then 0%Q
  else if (overlap =? 1)%nat then Qmax (fragmentation - (1 # 4))%Q 0%Q
  else fragmentation.

(** Modelled from the spec: "Device final points = result of step 4, clamped
    to [0,1]." *)
Definition clamp (x : Q) : Q := Qmax 0%Q (Qmin 1%Q x).

(** Modelled from the spec: steps 2 to 5 for one device, missing from the
    sources. *)
Definition device_points (records : list DeviceRecord) (device : string) : Q :=
  clamp (collision_rule (overlapDevices records device)
                        (fragmentation_score (List.length (hash_set records device)))).

(** Modelled from the spec: "sum(device points)", missing from the sources. *)
Definition total (points : list Q) : Q := fold_right Qplus 0%Q points.

(** Modelled from the spec: the final normalisation is missing from the
    sources.  "Session score = sum(device points) / count(distinct devices);
    if there are zero devices, score is defined as 0.0." *)
Definition score (records : list DeviceRecord) : Q :=
  match devices records with
  | [] => 0%Q
  | ds => (total (map (device_points records) ds)
           / inject_Z (Z.of_nat (List.length ds)))%Q
  end.

(** Modelled from the spec: "correct = devices scoring exactly 1.0;
    fragmentations = devices with |hash set| > 1; collisions = devices whose
    points were reduced or zeroed by the collision rule." *)
Record ScoreBreakdown : Type := mkBreakdown {
  correct : nat;
  collisions : nat;
  fragmentations : nat
}.

(** Modelled from the spec: the counting of devices for the breakdown,
    missing from the sources. *)
Definition count_devices (p : string -> bool) (records : list DeviceRecord) : nat :=
  List.length (filter p (devices records)).

(** Modelled from the spec: the breakdown of step 7, missing from the
    sources; a device counts as a collision when it shares a hash with
    another device. *)
Definition breakdown (records : list DeviceRecord) : ScoreBreakdown :=
  mkBreakdown
    (count_devices (fun d => Qeq_bool (device_points records d) 1%Q) records)
    (count_devices (fun d => (1 <=? overlapDevices records d)%nat) records)
    (count_devices (fun d => (2 <=? List.length (hash_set records d))%nat) records).

End Scoring.

Import Scoring.

(** ** The outcome of a whole run *)

Module Verdict.

(** The test of line 85: [event.data && event.data.type === 'fingerprint-result']. *)
Definition recognised (d : value) : bool :=
  truthy d && is_string_literal (get d "type") result_type.

(** A time by which every event of the list has been dispatched and the
    deadline of a run started at [t0] has passed. *)
Definition horizon (t0 : Z) (evs : list event) : Z :=
  fold_right Z.max (t0 + timeout_delay) (map at_time evs).

(** How the promise of a call made at [t0] ends, once everything that was
    going to happen has happened; [Pending] is a promise that never
    settles. *)
Definition final_outcome (t0 : Z) (store : list (nat * string)) (js : string)
           (evs : list event) : promise_state :=
  promise (state_at (horizon t0 evs) (executeInSandbox t0 store js) evs).

(** Where a settled promise got its value from: a resolved value is the
    [hash] of a result message of the iframe without truthy [error],
    dispatched by time [T]; a rejection is the timeout or carries the truthy
    [error] of such a message. *)
Definition explained (T : Z) (evs : list event) (p : promise_state) : Prop :=
  match p with
  | Pending => True
  | Resolved v =>
      exists e, In e evs /\ at_time e <= T /\ from_sandbox e = true /\
                recognised (data e) = true /\
                truthy (get (data e) "error") = false /\
                v = get (data e) "hash"
  | Rejected err =>
      err = NewError (VStr timeout_message) \/
      exists e, In e evs /\ at_time e <= T /\ from_sandbox e = true /\
                recognised (data e) = true /\
                truthy (get (data e) "error") = true /\
                err = NewError (get (data e) "error")
  end.

(** A run that no message of the iframe reaches before its deadline is
    either untouched or already rejected by the timer. *)
Definition waiting_or_timed_out (deadline : Z) (st : run_state) : Prop :=
  (timeoutId st = Armed deadline /\ promise st = Pending) \/
  promise st = Rejected (NewError (VStr timeout_message)).

End Verdict.

Import Verdict.

(** ** The page as the user sees it *)

Module Dom.

(** The elements the controller writes to: the status [div] (lines 24-35),
    the two buttons (lines 246-247, 269-270, 285-286, 297-298) and the
    results area (line 224).  [status_display] is the inline
    [style.display] of the status [div], [None] as long as no script has set
    it. *)
Record dom : Type := mkDom {
  status_shown : option (status_text * bool);
  status_class : string;
  status_display : option string;
  submit_disabled : bool;
  submit_label : string;
  results_disabled : bool;
  results_label : string;
  results_active : bool
}.

(** Lines 24-27. *)
Definition showStatus (message : status_text) (isError : bool) (d : dom) : dom :=
  mkDom (Some (message, isError)) (if isError then "error" else "success")
        (status_display d) (submit_disabled d) (submit_label d)
        (results_disabled d) (results_label d) (results_active d).

(** Lines 32-35. *)
Definition hideStatus (d : dom) : dom :=
  mkDom (status_shown d) "" (Some "none") (submit_disabled d) (submit_label d)
        (results_disabled d) (results_label d) (results_active d).

(** What one effect of the controller's log does to these elements; the
    requests and the writes into the score fields leave them alone. *)
Definition paint_one (d : dom) (x : effect) : dom :=
  match x with
  | ShowStatus message isError => showStatus message isError d
  | HideStatus => hideStatus d
  | SubmitButton disabled =>
      mkDom (status_shown d) (status_class d) (status_display d)
            disabled (if disabled then "Running..." else "Submit Fingerprint")
            (results_disabled d) (results_label d) (results_active d)
  | ResultsButton disabled =>
      mkDom (status_shown d) (status_class d) (status_display d)
            (submit_disabled d) (submit_label d)
            disabled (if disabled then "Loading..." else "View Results")
            (results_active d)
  | ShowResultsArea =>
      mkDom (status_shown d) (status_class d) (status_display d)
            (submit_disabled d) (submit_label d)
            (results_disabled d) (results_label d) true
  | _ => d
  end.

Definition paint (d : dom) (log : list effect) : dom := fold_left paint_one log d.

End Dom.

Import Dom.

(** ** A visit of the page: the listeners of lines 303-312 *)

Module Session.

Inductive field : Type :=
| SessionIdField
| DeviceLabelField.

(** What the user does: click a button, press a key in one of the two
    inputs, or change what the inputs hold. *)
Inductive ui_event : Type :=
| ClickSubmit
| ClickResults
| KeyPress (target : field) (key : string)
| Edit (session_id device_label : string).

Definition set_inputs (session_id device_label : string) (pg : page) : page :=
  mkPage session_id device_label (isRunning pg).

(** The handler the listeners run for one event, with the answers of the
    world to that handler; the log is painted on the page. *)
Definition on_event (st : page * dom) (ev : ui_event * world)
  : (page * dom) * list effect :=
  let (pg, d) := st in
  let (e, w) := ev in
  match e with
  | ClickSubmit =>
      let (pg', log) := handleSubmit pg w in ((pg', paint d log), log)
  | ClickResults =>
      let log := handleResults pg w in ((pg, paint d log), log)
  | KeyPress _ key =>
      if (key =? "Enter")%string
      then let (pg', log) := handleSubmit pg w in ((pg', paint d log), log)
      else ((pg, d), [])
  | Edit session_id device_label => ((set_inputs session_id device_label pg, d), [])
  end.

Fixpoint visit (st : page * dom) (evs : list (ui_event * world))
  : (page * dom) * list effect :=
  match evs with
  | [] => (st, [])
  | ev :: rest =>
      let (st', log) := on_event st ev in
      let (st'', log') := visit st' rest in
      (st'', log ++ log')
  end.

(** The requests only [handleSubmit] makes. *)
Definition is_submit_request (x : effect) : bool :=
  match x with
  | FetchScript | RunSandbox _ | PostCollect _ _ _ => true
  | _ => false
  end.

(** The promise of [executeInSandbox] that [handleSubmit] would wait for
    never settles: the script is fetched and its run stays pending. *)
Definition sticks (w : world) : bool :=
  match script_response w with
  | Some r => ok r && match sandbox w (text r) with
                      | Pending => true
                      | _ => false
                      end
  | None => false
  end.

(** The inputs pass [validateInputs]. *)
Definition valid_inputs (pg : page) : bool :=
  negb (is_empty (trim (sessionIdInput pg))) &&
  negb (is_empty (trim (deviceLabelInput pg))).

End Session.

Import Session.

(** ** The list of devices: [escapeHtml] and the rendering of [displayResults] *)

Module Render.

(** [escapeHtml] (lines 230-234) writes the text into a fresh [div] through
    [textContent] and reads [innerHTML] back: the browser serialises the
    resulting text node, which replaces [&], [<], [>] and the no-break space
    by their entities and copies every other code unit. *)
Definition escape_char (c : ascii) : string :=
  let n := nat_of_ascii c in
  if (n =? 38)%nat then "&amp;"
  else if (n =? 60)%nat then "&lt;"
  else if (n =? 62)%nat then "&gt;"
  else if (n =? 160)%nat then "&nbsp;"
  else String c EmptyString.

Fixpoint escapeHtml (text : string) : string :=
  match text with
  | EmptyString => EmptyString
  | String c rest => (escape_char c ++ escapeHtml rest)%string
  end.

Definition double_quote : string := String (ascii_of_nat 34) EmptyString.
Definition line_break : string := String (ascii_of_nat 10) EmptyString.

Fixpoint spaces (n : nat) : string :=
  match n with
  | O => EmptyString
  | S k => String " " (spaces k)
  end.

(** [`${index + 1}`] for an array index. *)
Definition decimal (n : nat) : string :=
  DecimalString.NilEmpty.string_of_uint (Nat.to_uint n).

(** The template literal of lines 212-218 for the device at [index], line
    breaks and indentation included.  A device is the pair of strings the
    results carry. *)
Definition device_item (index : nat) (device : DeviceRecord) : string :=
  (line_break ++ spaces 16 ++ "<div class=" ++ double_quote ++ "device-item"
   ++ double_quote ++ ">"
   ++ line_break ++ spaces 20 ++ "<strong>#" ++ decimal (index + 1) ++ "</strong> |"
   ++ line_break ++ spaces 20 ++ "Label: <code>"
   ++ escapeHtml (device_label device) ++ "</code> |"
   ++ line_break ++ spaces 20 ++ "Hash: <code>"
   ++ escapeHtml (fingerprint_hash device) ++ "</code>"
   ++ line_break ++ spaces 16 ++ "</div>"
   ++ line_break ++ spaces 12)%string.

(** [results.devices.map((device, index) => ...).join('')] *)
Fixpoint device_items (index : nat) (devices : list DeviceRecord) : string :=
  match devices with
  | [] => EmptyString
  | device :: rest => (device_item index device ++ device_items (S index) rest)%string
  end.

(** What lines 211-221 assign to the [innerHTML] of the devices list. *)
Definition devices_html (devices : list DeviceRecord) : string :=
  match devices with
  | [] => ("<div class=" ++ double_quote ++ "device-item" ++ double_quote
           ++ ">No devices collected yet</div>")%string
  | _ => device_items 0 devices
  end.

(** How often a code unit occurs in a string. *)
Fixpoint occurrences (c : ascii) (s : string) : nat :=
  match s with
  | EmptyString => O
  | String x rest => ((if Ascii.eqb x c then 1 else 0) + occurrences c rest)%nat
  end.

End Render.

Import Render.

(** ** The sample fingerprinting script ([docs/TESTING.md], lines 178-206) *)

Module Fingerprinter.

(** The Base64 alphabet of [btoa]. *)
Definition base64_digit (i : N) : ascii :=
  (if i <? 26 then ascii_of_N (65 + i)
   else if i <? 52 then ascii_of_N (97 + (i - 26))
   else if i <? 62 then ascii_of_N (48 + (i - 52))
   else if i =? 62 then "+"%char
   else "/"%char)%N.

(** [btoa] on a string of code units below 256 (on any other string it
    throws): three bytes give four digits, a rest of one or two bytes is
    padded with [=]. *)
Fixpoint btoa (s : string) : string :=
  match s with
  | EmptyString => EmptyString
  | String a EmptyString =>
      let x := N_of_ascii a in
      String (base64_digit (x / 4))
        (String (base64_digit ((x mod 4) * 16)) "==")
  | String a (String b EmptyString) =>
      let x := N_of_ascii a in
      let y := N_of_ascii b in
      String (base64_digit (x / 4))
        (String (base64_digit ((x mod 4) * 16 + y / 16))
           (String (base64_digit ((y mod 16) * 4)) "="))
  | String a (String b (String c rest)) =>
      let x := N_of_ascii a in
      let y := N_of_ascii b in
      let z := N_of_ascii c in
      String (base64_digit (x / 4))
        (String (base64_digit ((x mod 4) * 16 + y / 16))
           (String (base64_digit ((y mod 16) * 4 + z / 64))
              (String (base64_digit (z mod 64)) (btoa rest))))
  end%N.

Definition hex_digit (i : N) : ascii :=
  (if i <? 10 then ascii_of_N (48 + i) else ascii_of_N (97 + (i - 10)))%N.

(** How [JSON.stringify] writes one code unit of a string: the quote, the
    backslash and the control characters are escaped, every other code unit
    below 256 is copied. *)
Definition json_char (c : ascii) : string :=
  let n := N_of_ascii c in
  (if n =? 34 then String "\" double_quote
   else if n =? 92 then "\\"
   else if n =? 8 then "\b"
   else if n =? 9 then "\t"
   else if n =? 10 then "\n"
   else if n =? 12 then "\f"
   else if n =? 13 then "\r"
   else if n <? 32 then
     String "\" (String "u" (String "0" (String "0"
       (String (hex_digit (n / 16)) (String (hex_digit (n mod 16)) EmptyString)))))
   else String c EmptyString)%N.

Fixpoint json_chars (s : string) : string :=
  match s with
  | EmptyString => EmptyString
  | String c rest => (json_char c ++ json_chars rest)%string
  end.

(** [JSON.stringify(collectFingerprint())] for a browser whose
    [navigator.userAgent] is [userAgent]: the object has the one key
    [userAgent]. *)
Definition fingerprint_json (userAgent : string) : string :=
  ("{" ++ double_quote ++ "userAgent" ++ double_quote ++ ":"
   ++ double_quote ++ json_chars userAgent ++ double_quote ++ "}")%string.

(** [createFingerprintHash(collectFingerprint())]: the value
    [runFingerprinting] returns. *)
Definition createFingerprintHash (userAgent : string) : string :=
  substring 0 32 (btoa (fingerprint_json userAgent)).

(** A code unit [JSON.stringify] copies as it is. *)
Definition plain (c : ascii) : bool :=
  let n := N_of_ascii c in
  (negb (n =? 34) && negb (n =? 92) && negb (n <? 32))%N.

Fixpoint all_plain (s : string) : bool :=
  match s with
  | EmptyString => true
  | String c rest => plain c && all_plain rest
  end.

End Fingerprinter.

Import Fingerprinter.

(** ** The sample post-processing script ([docs/TESTING.md], lines 131-177) *)

Module PostProcess.

(** The globals the script reads and changes: [window.ENDPOINT]
    ([undefined] once deleted), whether [delete window.ENDPOINT] succeeds
    (it throws in a module on a property that is not configurable),
    [window.ORDER_ID], and whether [console.log] and [console.error] still
    are the console's own functions. *)
Record globals : Type := mkGlobals {
  ENDPOINT : value;
  endpoint_configurable : bool;
  ORDER_ID : value;
  console_log_on : bool;
  console_error_on : bool
}.

(** What leaves the script: lines on the console, and the POST request with
    its URL and the two fields of its payload. *)
Inductive output : Type :=
| Logged (line : string)
| LoggedError (line : string) (e : error)
| Warned (line : string)
| Posted (url : value) (fingerprint order_id : value).

Definition console_log (g : globals) (line : string) : list output :=
  if console_log_on g then [Logged line] else [].

Definition console_error (g : globals) (line : string) (e : error) : list output :=
  if console_error_on g then [LoggedError line e] else [].

(** Lines 131-146.  The answer is that of the server, [None] when [fetch]
    rejects. *)
Definition sendFingerprint (g : globals) (answer : option response)
           (fingerprint order_id : value) : list output * outcome value :=
  ([Posted (ENDPOINT g) fingerprint order_id],
   match answer with
   | None => Thrown fetch_failed
   | Some r =>
       if negb (ok r)
       then Thrown (NewError (VStr ("HTTP error! status: "
                                    ++ decimal (Z.to_nat (status r)))))
       else match json r with
            | Some j => Done j
            | None => Thrown body_not_json
            end
   end).

(** Lines 148-177. *)
Definition postProcess (g : globals) (answer : option response) (fingerprint : value)
  : globals * list output * outcome unit :=
  let start := console_log g "[PostProcess] Cleaning up environment..." in
  let order_id := if truthy (ORDER_ID g) then ORDER_ID g else VStr "unknown" in
  match sendFingerprint g answer fingerprint order_id with
  | (sent, Thrown e) =>
      (g, start ++ sent
          ++ console_error g "[PostProcess] Error sending fingerprint:" e,
       Thrown e)
  | (sent, Stuck) => (g, start ++ sent, Stuck)
  | (sent, Done _) =>
      let deleted := endpoint_configurable g in
      let warned := if deleted then []
                    else [Warned "[PostProcess] Failed to clean some globals:"] in
      let g' := mkGlobals (if deleted then VUndefined else ENDPOINT g)
                          (endpoint_configurable g) (ORDER_ID g) false false in
      (g', start ++ sent ++ warned ++ console_log g' "[PostProcess] Done.", Done tt)
  end.

End PostProcess.

Import PostProcess.

(** * Properties *)

(** ** Sanity checks of the scoring model against the documented examples *)

Example score_one_device_one_hash :
  let rs := [mkRecord "d1" "A"; mkRecord "d1" "A"; mkRecord "d1" "A"] in
  Qeq_bool (score rs) 1%Q = true /\ breakdown rs = mkBreakdown 1 0 0.
Proof. vm_compute. split; reflexivity. Qed.

Example score_two_hashes :
  Qeq_bool (score [mkRecord "d1" "A"; mkRecord "d1" "B"]) (7 # 10)%Q = true.
Proof. vm_compute. reflexivity. Qed.

Example score_three_hashes :
  let rs := [mkRecord "d1" "A"; mkRecord "d1" "B"; mkRecord "d1" "C"] in
  Qeq_bool (score rs) 0%Q = true /\ fragmentations (breakdown rs) = 1%nat.
Proof. vm_compute. split; reflexivity. Qed.

Example score_shared_hash :
  let rs := [mkRecord "d1" "A"; mkRecord "d2" "A"] in
  Qeq_bool (score rs) (3 # 4)%Q = true /\ collisions (breakdown rs) = 2%nat.
Proof. vm_compute. split; reflexivity. Qed.

Example score_three_devices_one_hash :
  Qeq_bool (score [mkRecord "d1" "A"; mkRecord "d2" "A"; mkRecord "d3" "A"]) 0%Q = true.
Proof. vm_compute. reflexivity. Qed.

(** ** The host side: messages, timer and promise *)

Lemma handleMessage_foreign st w d :
  not_sandbox w = true -> handleMessage st w d = st.
Proof. intros H. unfold handleMessage. now rewrite H. Qed.

Lemma advance_idle st t :
  (forall due, timeoutId st = Armed due -> t < due) -> advance t st = st.
Proof.
  intros H. unfold advance. destruct (timeoutId st) as [due| |] eqn:E; auto.
  specialize (H due eq_refl). destruct (Z.leb_spec due t); [lia | reflexivity].
Qed.

Lemma advance_twice st a t :
  a <= t -> advance t (advance a st) = advance t st.
Proof.
  intros Hle. unfold advance at 2 3.
  destruct (timeoutId st) as [due| |] eqn:E.
  - destruct (Z.leb_spec due a), (Z.leb_spec due t); try lia.
    + reflexivity.
    + unfold advance. rewrite E. destruct (Z.leb_spec due t); [reflexivity | lia].
    + apply advance_idle. intros due' E'. rewrite E in E'. injection E' as <-. lia.
  - unfold advance. now rewrite E.
  - unfold advance. now rewrite E.
Qed.

Lemma dispatch_foreign st e :
  from_sandbox e = false -> dispatch st e = advance (at_time e) st.
Proof.
  unfold from_sandbox, dispatch. intros H. apply negb_false_iff in H.
  destruct (listening _); [now apply handleMessage_foreign | reflexivity].
Qed.

Lemma closed_advance st t : closed st -> advance t st = st.
Proof.
  intros [Ht _]. unfold advance. destruct (timeoutId st); [discriminate | | ]; reflexivity.
Qed.

Lemma closed_dispatch st e : closed st -> dispatch st e = st.
Proof.
  intros H. unfold dispatch. rewrite (closed_advance _ _ H).
  destruct H as [_ Hl]. now rewrite Hl.
Qed.

Lemma closed_run st evs : closed st -> run_events st evs = st.
Proof.
  intros H. induction evs as [|e evs IH]; [reflexivity|].
  unfold run_events in *. cbn. now rewrite closed_dispatch.
Qed.

Lemma handleMessage_closes st d : closed (handleMessage st SandboxWindow d).
Proof.
  unfold handleMessage, closed. cbn.
  destruct (truthy d && _); [destruct (truthy _)|]; cbn;
    (split; [destruct (timeoutId st)|]; reflexivity).
Qed.

(** A promise settles once: neither a message nor the timer changes a
    settled promise. *)
Lemma settled_handleMessage st w d :
  promise st <> Pending -> promise (handleMessage st w d) = promise st.
Proof.
  intros H. unfold handleMessage.
  destruct (not_sandbox w); [reflexivity|].
  destruct (truthy d && _); [destruct (truthy _)|]; cbn;
    destruct (promise st); cbn; congruence.
Qed.

Lemma settled_advance st t :
  promise st <> Pending -> promise (advance t st) = promise st.
Proof.
  intros H. unfold advance. destruct (timeoutId st) as [due| |]; try reflexivity.
  destruct (due <=? t); [|reflexivity]. cbn. destruct (promise st); cbn; congruence.
Qed.

Lemma settled_dispatch st e :
  promise st <> Pending -> promise (dispatch st e) = promise st.
Proof.
  intros H. unfold dispatch.
  destruct (listening _).
  - rewrite settled_handleMessage; rewrite settled_advance; auto.
  - now apply settled_advance.
Qed.

Lemma settled_run st evs :
  promise st <> Pending -> promise (run_events st evs) = promise st.
Proof.
  revert st. induction evs as [|e evs IH]; intros st H; [reflexivity|].
  unfold run_events in *. cbn. rewrite IH.
  - now apply settled_dispatch.
  - rewrite settled_dispatch; auto.
Qed.

(** Events of other windows only let time pass. *)
Lemma foreign_run st evs t :
  Forall (fun e => from_sandbox e = false /\ at_time e <= t) evs ->
  advance t (run_events st evs) = advance t st.
Proof.
  revert st. induction evs as [|e evs IH]; intros st H; [reflexivity|].
  inversion H as [|? ? [Hf Ht] Hrest]; subst.
  unfold run_events in *. cbn. rewrite IH by assumption.
  rewrite dispatch_foreign by assumption. now apply advance_twice.
Qed.

Lemma filter_foreign evs :
  filter from_sandbox evs = [] -> Forall (fun e => from_sandbox e = false) evs.
Proof.
  induction evs as [|e evs IH]; cbn; intros H; [constructor|].
  destruct (from_sandbox e) eqn:E; [discriminate|]. constructor; auto.
Qed.

(** A list with exactly one event of the iframe splits around it. *)
Lemma filter_single evs m :
  filter from_sandbox evs = [m] ->
  exists before after,
    evs = before ++ m :: after /\
    Forall (fun e => from_sandbox e = false) before /\
    Forall (fun e => from_sandbox e = false) after /\
    from_sandbox m = true.
Proof.
  induction evs as [|e evs IH]; cbn; intros H; [discriminate|].
  destruct (from_sandbox e) eqn:E.
  - injection H as -> Hrest. exists [], evs. repeat split; auto.
    now apply filter_foreign.
  - destruct (IH H) as (b & a & -> & Hb & Ha & Hm).
    exists (e :: b), a. repeat split; auto.
Qed.

Lemma filter_time_app T (l1 l2 : list event) :
  filter (fun e => at_time e <=? T) (l1 ++ l2)
  = filter (fun e => at_time e <=? T) l1 ++ filter (fun e => at_time e <=? T) l2.
Proof. apply filter_app. Qed.

Lemma filter_keeps_all T (l : list event) :
  Forall (fun e => at_time e <= T) l -> filter (fun e => at_time e <=? T) l = l.
Proof.
  induction 1 as [|e l He _ IH]; cbn; [reflexivity|].
  destruct (Z.leb_spec (at_time e) T); [now rewrite IH | lia].
Qed.

Lemma run_events_app st l1 l2 :
  run_events st (l1 ++ l2) = run_events (run_events st l1) l2.
Proof. unfold run_events. apply fold_left_app. Qed.

Lemma chronological_before (before after : list event) m :
  chronological (before ++ m :: after) ->
  Forall (fun e => at_time e <= at_time m) before.
Proof.
  induction before as [|e before IH]; cbn; intros H; [constructor|].
  inversion H as [|? ? Hs Hall]; subst. constructor.
  - rewrite Forall_forall in Hall. apply Hall. apply in_or_app. right. now left.
  - now apply IH.
Qed.

(** The run with a single message of the iframe, arriving at [at_time m]
    before the deadline and seen at a later time [T]: the outcome is what
    [handleMessage] makes of that message in the initial state. *)
Lemma single_message_run t0 store js evs m T :
  chronological evs ->
  filter from_sandbox evs = [m] ->
  at_time m < t0 + timeout_delay ->
  at_time m <= T ->
  state_at T (executeInSandbox t0 store js) evs
  = handleMessage (executeInSandbox t0 store js) SandboxWindow (data m).
Proof.
  intros Hchr Hf Hdue HT.
  destruct (filter_single _ _ Hf) as (before & after & -> & Hb & Ha & Hm).
  pose proof (chronological_before _ _ _ Hchr) as Hbt.
  unfold state_at. rewrite filter_time_app. cbn [filter].
  destruct (Z.leb_spec (at_time m) T); [|lia].
  rewrite (filter_keeps_all T before).
  2:{ eapply Forall_impl; [|exact Hbt]. cbn. intros; lia. }
  change (m :: filter (fun e => at_time e <=? T) after)
    with ([m] ++ filter (fun e => at_time e <=? T) after).
  rewrite !run_events_app.
  change (run_events (run_events (executeInSandbox t0 store js) before) [m])
    with (dispatch (run_events (executeInSandbox t0 store js) before) m).
  assert (Hd : dispatch (run_events (executeInSandbox t0 store js) before) m
               = handleMessage (executeInSandbox t0 store js) SandboxWindow (data m)).
  { unfold dispatch. rewrite foreign_run.
    2:{ rewrite Forall_forall in *. intros e He. split; auto. }
    rewrite advance_idle.
    2:{ cbn. intros due E. injection E as <-. lia. }
    cbn [listening executeInSandbox].
    unfold from_sandbox in Hm. destruct (source m); try discriminate. reflexivity. }
  rewrite Hd.
  rewrite closed_run by apply handleMessage_closes.
  apply closed_advance, handleMessage_closes.
Qed.

Lemma foreign_run_early st evs t :
  (forall due, timeoutId st = Armed due -> t < due) ->
  Forall (fun e => from_sandbox e = false /\ at_time e <= t) evs ->
  run_events st evs = st.
Proof.
  intros Hdue H. induction H as [|e evs [Hf Ht] _ IH]; [reflexivity|].
  unfold run_events in *. cbn. rewrite dispatch_foreign by assumption.
  rewrite advance_idle; [exact IH|]. intros due E. specialize (Hdue due E). lia.
Qed.

(** A message of the iframe that is not a result message ends the run
    without settling the promise. *)
Lemma unrecognised_message_stalls st d later :
  promise st = Pending -> listening st = true ->
  truthy d && is_string_literal (get d "type") result_type = false ->
  forall t, (forall due, timeoutId st = Armed due -> t < due) ->
  let st' := run_events st (Message t SandboxWindow d :: later) in
  promise st' = Pending /\ closed st'.
Proof.
  intros Hp Hl Hd t Hdue. cbn zeta.
  assert (E : dispatch st (Message t SandboxWindow d)
              = removeEventListener (clearTimeout st)).
  { unfold dispatch. cbn [at_time source data]. rewrite advance_idle by assumption.
    rewrite Hl. unfold handleMessage. cbn [not_sandbox]. now rewrite Hd. }
  assert (C : closed (removeEventListener (clearTimeout st))).
  { split; cbn; [destruct (timeoutId st)|]; reflexivity. }
  change (run_events st (Message t SandboxWindow d :: later))
    with (run_events (dispatch st (Message t SandboxWindow d)) later).
  rewrite E, closed_run by exact C. split; [exact Hp | exact C].
Qed.

(** C1 (the code at the failing input).  A message from the sandbox window
    whose data is [{type: 'progress'}] arrives 100 ms into the run: from then
    on, whatever else arrives and however long one waits, the promise is
    neither resolved nor rejected, while the timer is gone and the listener
    is removed. *)
Theorem unrecognised_message_leaves_promise_pending
        (store : list (nat * string)) (js : string) (later : list event) (n : nat) :
  let st := state_at (100 + Z.of_nat n) (executeInSandbox 0 store js)
                     (Message 100 SandboxWindow (VObj [("type", VStr "progress")])
                      :: later) in
  promise st = Pending /\ is_armed (timeoutId st) = false /\ listening st = false.
Proof.
  cbn zeta. unfold state_at. cbn [filter at_time].
  destruct (Z.leb_spec 100 (100 + Z.of_nat n)); [|lia].
  destruct (unrecognised_message_stalls (executeInSandbox 0 store js)
              (VObj [("type", VStr "progress")])
              (filter (fun e => at_time e <=? 100 + Z.of_nat n) later)
              eq_refl eq_refl eq_refl 100) as [Hp Hc].
  { cbn. intros due E. injection E as <-. reflexivity. }
  rewrite closed_advance by exact Hc. destruct Hc. auto.
Qed.

(** The same hole seen from the script: a script that throws a string makes
    the template post [{type, error: undefined}], which the host takes for a
    success and resolves with [undefined]. *)
Example thrown_string_resolves_with_undefined :
  sandbox_posts readonly_platform (mkScript true [Throw (VStr "boom")] None)
  = [error_message VUndefined] /\
  promise (state_at 6000 (executeInSandbox 0 [] "throw 'boom'")
                    [Message 100 SandboxWindow (error_message VUndefined)])
  = Resolved VUndefined.
Proof. split; reflexivity. Qed.

(** C2.  A message whose source is not the sandbox iframe's window leaves the
    handler without any effect: the run's state (timer, listener, promise) is
    unchanged.  After any number of such messages the run is exactly where
    it started, and a later message of the iframe is handled as if they had
    never arrived; a result message resolves the call with its hash. *)
Theorem forged_messages_are_ignored
        (t0 : Z) (store : list (nat * string)) (js : string)
        (forged : list event) (m : event) (T : Z) :
  Forall (fun e => from_sandbox e = false /\ at_time e <= at_time m) forged ->
  from_sandbox m = true ->
  at_time m < t0 + timeout_delay ->
  at_time m <= T ->
  let st0 := executeInSandbox t0 store js in
  Forall (fun e => forall st, handleMessage st (source e) (data e) = st) forged /\
  run_events st0 forged = st0 /\
  state_at T st0 (forged ++ [m]) = state_at T st0 [m] /\
  (forall h, data m = hash_message h ->
             promise (state_at T st0 (forged ++ [m])) = Resolved h).
Proof.
  intros Hf Hm Hdue HT st0.
  assert (Hearly : forall due, timeoutId st0 = Armed due -> at_time m < due).
  { cbn. intros due E. injection E as <-. exact Hdue. }
  assert (Hrun : run_events st0 forged = st0) by now apply foreign_run_early with (t := at_time m).
  assert (Hsame : state_at T st0 (forged ++ [m]) = state_at T st0 [m]).
  { unfold state_at. rewrite filter_keeps_all.
    - rewrite run_events_app, Hrun. cbn [filter].
      destruct (Z.leb_spec (at_time m) T); [reflexivity | lia].
    - apply Forall_app. split; [|repeat constructor; exact HT].
      eapply Forall_impl; [|exact Hf]. cbn. intros e [_ ?]. lia. }
  repeat split; auto.
  - eapply Forall_impl; [|exact Hf]. cbn. intros e [He _] st.
    apply handleMessage_foreign. unfold from_sandbox in He.
    now apply negb_false_iff in He.
  - intros h Hd. rewrite Hsame. unfold state_at. cbn [filter].
    destruct (Z.leb_spec (at_time m) T); [|lia].
    change (run_events st0 [m]) with (dispatch st0 m).
    unfold dispatch. rewrite (advance_idle st0 (at_time m)) by exact Hearly.
    cbn [listening st0 executeInSandbox]. rewrite Hd.
    unfold from_sandbox in Hm. destruct (source m); try discriminate.
    rewrite closed_advance by apply handleMessage_closes. reflexivity.
Qed.

Lemma forged_messages_are_ignored_witness :
  let forged := [Message 10 HostWindow (hash_message (VStr "forged"));
                 Message 20 (OtherWindow 7) (error_message (VStr "forged"))] in
  let m := Message 30 SandboxWindow (hash_message (VStr "abc")) in
  promise (state_at 40 (executeInSandbox 0 [] "js") (forged ++ [m]))
  = Resolved (VStr "abc").
Proof.
  cbn zeta.
  refine (proj2 (proj2 (proj2
    (forged_messages_are_ignored 0 [] "js"
       [Message 10 HostWindow (hash_message (VStr "forged"));
        Message 20 (OtherWindow 7) (error_message (VStr "forged"))]
       (Message 30 SandboxWindow (hash_message (VStr "abc"))) 40
       _ _ _ _))) (VStr "abc") eq_refl).
  - repeat constructor; cbn; lia.
  - reflexivity.
  - reflexivity.
  - cbn; lia.
Defined.

(** ** Resources of a run *)

Lemma handleMessage_keeps_urls st w d :
  url_store (handleMessage st w d) = url_store st /\
  sandbox_src (handleMessage st w d) = sandbox_src st.
Proof.
  unfold handleMessage. destruct (not_sandbox w); [auto|].
  destruct (truthy d && _); [destruct (truthy _)|]; auto.
Qed.

Lemma advance_keeps_urls st t :
  url_store (advance t st) = url_store st /\
  sandbox_src (advance t st) = sandbox_src st.
Proof.
  unfold advance. destruct (timeoutId st) as [due| |]; auto.
  destruct (due <=? t); auto.
Qed.

Lemma dispatch_keeps_urls st e :
  url_store (dispatch st e) = url_store st /\
  sandbox_src (dispatch st e) = sandbox_src st.
Proof.
  unfold dispatch. destruct (listening _).
  - destruct (handleMessage_keeps_urls (advance (at_time e) st) (source e) (data e))
      as [-> ->]. apply advance_keeps_urls.
  - apply advance_keeps_urls.
Qed.

Lemma run_keeps_urls st evs :
  url_store (run_events st evs) = url_store st /\
  sandbox_src (run_events st evs) = sandbox_src st.
Proof.
  revert st. induction evs as [|e evs IH]; intros st; [auto|].
  unfold run_events in *. cbn. destruct (IH (dispatch st e)) as [-> ->].
  apply dispatch_keeps_urls.
Qed.

Lemma timer_spent_advance st t : timer_spent st -> timer_spent (advance t st).
Proof.
  unfold timer_spent, advance. intros H.
  destruct (timeoutId st) as [due| |] eqn:E; try (rewrite E; exact H).
  destruct (due <=? t); [right; reflexivity | now rewrite E].
Qed.

Lemma timer_spent_handleMessage st w d :
  timer_spent st -> timer_spent (handleMessage st w d).
Proof.
  intros H. destruct w; try (rewrite handleMessage_foreign; auto; fail).
  right. apply handleMessage_closes.
Qed.

Lemma timer_spent_run st evs : timer_spent st -> timer_spent (run_events st evs).
Proof.
  revert st. induction evs as [|e evs IH]; intros st H; [exact H|].
  unfold run_events in *. cbn. apply IH. unfold dispatch.
  destruct (listening _).
  - now apply timer_spent_handleMessage, timer_spent_advance.
  - now apply timer_spent_advance.
Qed.

(** C5 (as amended).  At every moment of every run the object URL created
    for the blob is still in the document's store and still the iframe's
    [src]: no path releases it.  A settled promise never has its timer still
    armed.  Whenever [handleMessage] settles the promise, the timer is
    cancelled and the message listener removed. *)
Theorem terminal_states_and_resources
        (t0 : Z) (store : list (nat * string)) (js : string)
        (evs : list event) (T : Z) :
  let st := state_at T (executeInSandbox t0 store js) evs in
  url_store st = (fresh_url store, js) :: store /\
  sandbox_src st = Some (fresh_url store) /\
  (promise st <> Pending -> is_armed (timeoutId st) = false) /\
  (forall st' w d,
      promise st' = Pending -> promise (handleMessage st' w d) <> Pending ->
      closed (handleMessage st' w d)).
Proof.
  cbn zeta. unfold state_at.
  set (l := filter _ evs).
  destruct (advance_keeps_urls (run_events (executeInSandbox t0 store js) l) T)
    as [-> ->].
  destruct (run_keeps_urls (executeInSandbox t0 store js) l) as [-> ->].
  repeat split.
  - intros Hs.
    destruct (timer_spent_advance _ T
                (timer_spent_run (executeInSandbox t0 store js) l (or_introl eq_refl)))
      as [Hp|Ha]; [contradiction | exact Ha].
  - destruct w; try (rewrite handleMessage_foreign in H0 by reflexivity; contradiction).
    apply handleMessage_closes.
  - destruct w; try (rewrite handleMessage_foreign in H0 by reflexivity; contradiction).
    apply handleMessage_closes.
Qed.

(** C5 (counterexample).  A run that completes normally leaves its object URL
    in the store, and a second run adds another; a run that times out also
    leaves its message listener on the window. *)
Lemma object_url_and_listener_outlive_the_run :
  let done := state_at 6000 (executeInSandbox 0 [] "first")
                       [Message 100 SandboxWindow (hash_message (VStr "abc"))] in
  let again := state_at 13000 (executeInSandbox 7000 (url_store done) "second")
                        [Message 7100 SandboxWindow (hash_message (VStr "abc"))] in
  let late := state_at 6000 (executeInSandbox 0 [] "first") [] in
  promise done = Resolved (VStr "abc") /\
  url_store done = [(1%nat, "first")] /\
  url_store again = [(2%nat, "second"); (1%nat, "first")] /\
  promise late = Rejected (NewError (VStr timeout_message)) /\
  listening late = true /\
  url_store late = [(1%nat, "first")].
Proof. cbn zeta. repeat split; reflexivity. Qed.

(** ** The deadline *)

Lemma timeline_without_sandbox_message t0 store js evs T :
  filter from_sandbox evs = [] ->
  promise (state_at T (executeInSandbox t0 store js) evs)
  = if T <? t0 + timeout_delay then Pending
    else Rejected (NewError (VStr timeout_message)).
Proof.
  intros H. unfold state_at. rewrite foreign_run.
  - unfold advance. cbn [timeoutId executeInSandbox].
    destruct (Z.leb_spec (t0 + timeout_delay) T), (Z.ltb_spec T (t0 + timeout_delay));
      try lia; reflexivity.
  - apply filter_foreign in H. rewrite Forall_forall in *.
    intros e He. apply filter_In in He. destruct He as [He Ht].
    split; [now apply H | now apply Z.leb_le].
Qed.

(** ** The isolated context *)

Section Guards.

Variable P : platform.

Lemma guards_eval : eval_binding (guards P fresh_realm) = Throwing eval_message.
Proof. unfold guards. destruct (set_parent P), (set_top P); reflexivity. Qed.

Lemma guards_function : function_binding (guards P fresh_realm) = Native.
Proof. unfold guards. destruct (set_parent P), (set_top P); reflexivity. Qed.

(** After the guards, [window.parent] is the host or [null], according to
    what the browser made of the assignment. *)
Lemma guards_parent :
  parent_ref (guards P fresh_realm)
  = match set_parent P with
    | Replaced => None
    | _ => Some HostWindow
    end.
Proof. unfold guards. destruct (set_parent P), (set_top P); reflexivity. Qed.

Lemma report_to_parent r e sent :
  parent_ref r = Some HostWindow -> nullish e = false ->
  report P r e sent = sent ++ [error_message (get e "message")].
Proof.
  intros Hp He. unfold report, postMessage. cbn [deref]. now rewrite He, Hp.
Qed.

Lemma report_without_parent r e sent :
  parent_ref r = None -> report P r e sent = sent.
Proof.
  intros Hp. unfold report, postMessage. cbn [deref]. rewrite Hp.
  now destruct (nullish e).
Qed.

(** C3 (as amended).  On every browser, before the script body runs, the
    global [eval] has been replaced by a function that throws
    [Error('eval() is not allowed')] whenever it is called, while the
    [Function] constructor is left as the browser provides it.  A script that
    calls [eval] at its top level is reported with that message whenever the
    parent reference is there to report through. *)
Theorem eval_is_replaced_before_the_script_runs
        (rest : list action) (entry : option call) :
  let r := guards P fresh_realm in
  eval_binding r = Throwing eval_message /\
  invoke r Eval = Abrupt (error_object eval_message) /\
  binding_of r FunctionConstructor = Native /\
  sandbox_posts P (mkScript true (Invoke Eval :: rest) entry)
  = match parent_ref r with
    | Some _ => [error_message (VStr eval_message)]
    | None => []
    end.
Proof.
  cbn zeta. repeat split.
  - apply guards_eval.
  - unfold invoke. cbn [binding_of]. now rewrite guards_eval.
  - apply guards_function.
  - unfold sandbox_posts, module_script. cbn [parses body run_body].
    unfold invoke. cbn [binding_of]. rewrite guards_eval.
    rewrite guards_parent. destruct (set_parent P) eqn:E.
    + apply report_without_parent. rewrite guards_parent. now rewrite E.
    + rewrite report_to_parent; [reflexivity | | reflexivity].
      rewrite guards_parent. now rewrite E.
    + rewrite report_to_parent; [reflexivity | | reflexivity].
      rewrite guards_parent. now rewrite E.
Qed.

End Guards.

(** C3 (counterexample).  The [Function] constructor is not intercepted: on
    either browser a call returns normally, and a script that builds code
    with it and then returns a hash runs to a successful result. *)
Lemma function_constructor_is_not_intercepted :
  let s := mkScript true [Invoke FunctionConstructor]
                    (Some (CallReturns (Promise (Fulfils (VStr "abc"))))) in
  invoke (guards standard_platform fresh_realm) FunctionConstructor = Normal /\
  invoke (guards readonly_platform fresh_realm) FunctionConstructor = Normal /\
  sandbox_posts readonly_platform s = [hash_message (VStr "abc")] /\
  promise (state_at 6000 (executeInSandbox 0 [] "new Function('return 1')()")
                    [Message 100 SandboxWindow (hash_message (VStr "abc"))])
  = Resolved (VStr "abc").
Proof. cbn zeta. repeat split; reflexivity. Qed.

(** A script that only declares things posts nothing of its own; when
    [window.parent] has become [null], the template has no way to report
    either, whatever [runFingerprinting] does. *)
Lemma severed_parent_silences_the_template P s :
  set_parent P = Replaced -> body s = [] -> sandbox_posts P s = [].
Proof.
  intros Hp Hb. unfold sandbox_posts. destruct (parses s); [|reflexivity].
  assert (Hn : parent_ref (guards P fresh_realm) = None)
    by (rewrite guards_parent; now rewrite Hp).
  unfold module_script. rewrite Hb. cbn [run_body].
  destruct (runFingerprinting s) as [[e|[v|[v|e|]]]|]; cbn [chain].
  - now apply report_without_parent.
  - now apply report_without_parent.
  - unfold on_result, postMessage. cbn [deref]. rewrite Hn.
    destruct (typeof_string v); cbn [negb]; now rewrite report_without_parent.
  - now rewrite report_without_parent.
  - reflexivity.
  - now apply report_without_parent.
Qed.

(** C4 (the code at the failing input).  On every browser, once the guards
    have run, either [window.parent] still is the host window, or a script
    that only declares its entry point can get no message out, so that its
    run ends on the timeout; and [window.top], which a standard browser does
    not let a script overwrite, still is the host window there.  The script
    that returns the hash ['abc'] shows both: on the standard browser nothing
    is posted while a script can still post through the intact [top], on a
    browser that ignores the assignments the hash leaves through the intact
    [parent]. *)
Theorem back_reference_is_kept_or_the_report_is_lost (P : platform) :
  let good := mkScript true [] (Some (CallReturns (Promise (Fulfils (VStr "abc"))))) in
  (parent_ref (guards P fresh_realm) = Some HostWindow \/
   forall s, body s = [] -> sandbox_posts P s = []) /\
  top_ref (guards standard_platform fresh_realm) = Some HostWindow /\
  sandbox_posts standard_platform good = [] /\
  sandbox_posts standard_platform
                (mkScript true [Post ViaTop (hash_message (VStr "forged"))] None)
  = [hash_message (VStr "forged")] /\
  parent_ref (guards readonly_platform fresh_realm) = Some HostWindow /\
  sandbox_posts readonly_platform good = [hash_message (VStr "abc")].
Proof.
  cbn zeta. repeat split; try reflexivity.
  rewrite guards_parent. destruct (set_parent P) eqn:E; auto.
  right. intros s Hb. now apply severed_parent_silences_the_template.
Qed.

(** ** What the template reports *)

Lemma messages_differ :
  entry_point_message <> result_type_message /\
  entry_point_message <> timeout_message /\
  result_type_message <> timeout_message /\
  entry_point_message <> eval_message /\
  result_type_message <> eval_message.
Proof. repeat split; discriminate. Qed.

(** C7 (counterexample).  A script whose entry point never settles but whose
    body posts a result message through [window.top], which a standard
    browser leaves intact: the call is resolved with the posted hash after
    100 ms and no timeout ever rejects it. *)
Lemma posting_script_is_resolved_not_timed_out :
  let s := mkScript true [Post ViaTop (hash_message (VStr "forged"))]
                    (Some (CallReturns (Promise NeverSettles))) in
  let evs := [Message 100 SandboxWindow (hash_message (VStr "forged"))] in
  runFingerprinting s = Some (CallReturns (Promise NeverSettles)) /\
  delivers standard_platform s evs /\
  delivers readonly_platform s evs /\
  promise (state_at 100 (executeInSandbox 0 [] "js") evs) = Resolved (VStr "forged") /\
  promise (state_at 5000 (executeInSandbox 0 [] "js") evs) = Resolved (VStr "forged") /\
  promise (state_at 60000 (executeInSandbox 0 [] "js") evs) = Resolved (VStr "forged").
Proof. cbn zeta. repeat split; reflexivity. Qed.

(** ** [trim] *)

Lemma trim_start_spec s :
  exists lead, s = (lead ++ trim_start s)%string /\
               all_white_space lead = true /\
               starts_clean (trim_start s) = true.
Proof.
  induction s as [|c s (lead & E & Hl & Hc)].
  - exists ""%string. auto.
  - cbn [trim_start]. destruct (is_white_space c) eqn:W.
    + exists (String c lead). cbn. rewrite W, Hl, <- E. auto.
    + exists ""%string. cbn. rewrite W. auto.
Qed.

Lemma trim_end_spec s :
  exists trail, s = (trim_end s ++ trail)%string /\
                all_white_space trail = true /\
                ends_clean (trim_end s) = true.
Proof.
  induction s as [|c s (trail & E & Ht & Hc)].
  - exists ""%string. auto.
  - cbn [trim_end]. destruct (trim_end s) as [|k kept] eqn:K.
    + cbn in E. subst trail. destruct (is_white_space c) eqn:W.
      * exists (String c s). cbn. rewrite W, Ht. auto.
      * exists s. cbn. rewrite W. auto.
    + exists trail. repeat split; auto.
      change (String c s = String c (String k kept ++ trail)%string).
      now rewrite <- E.
Qed.

Lemma trim_end_keeps_start s :
  starts_clean s = true -> starts_clean (trim_end s) = true.
Proof.
  destruct s as [|c s]; [reflexivity|]. cbn [trim_end starts_clean].
  intros H. destruct (trim_end s); [|exact H].
  destruct (is_white_space c) eqn:W; [discriminate H | cbn; now rewrite W].
Qed.

(** [trim s] is [s] without a leading and a trailing run of white space, and
    it neither starts nor ends with white space. *)
Lemma trim_spec s :
  exists lead trail,
    s = (lead ++ trim s ++ trail)%string /\
    all_white_space lead = true /\ all_white_space trail = true /\
    starts_clean (trim s) = true /\ ends_clean (trim s) = true.
Proof.
  destruct (trim_start_spec s) as (lead & E1 & Hl & Hs).
  destruct (trim_end_spec (trim_start s)) as (trail & E2 & Ht & He).
  exists lead, trail. unfold trim. rewrite <- E2, <- E1.
  repeat split; auto. now apply trim_end_keeps_start.
Qed.

Lemma trim_white_space s : all_white_space s = true -> trim s = ""%string.
Proof.
  unfold trim. induction s as [|c s IH]; [reflexivity|].
  cbn. intros H. apply andb_true_iff in H as [W Hs]. rewrite W. auto.
Qed.

(** ** The page controller *)

Lemma invalid_inputs_stop_submit pg w shown :
  validateInputs pg = (shown, None) ->
  fst (handleSubmit pg w) = pg /\
  filter is_request (snd (handleSubmit pg w)) = [] /\
  (isRunning pg = false -> snd (handleSubmit pg w) = shown).
Proof.
  intros H. unfold handleSubmit. rewrite H.
  destruct (isRunning pg); cbn [fst snd].
  - repeat split; auto. discriminate.
  - repeat split; auto.
    unfold validateInputs in H.
    destruct (is_empty (trim (sessionIdInput pg)));
      [|destruct (is_empty (trim (deviceLabelInput pg)))];
      inversion H; reflexivity.
Qed.

Lemma Forall_bind (Q : effect -> Prop) (A B : Type) (m : task A) (k : A -> task B) :
  Forall Q (fst m) -> (forall a, Forall Q (fst (k a))) -> Forall Q (fst (bind m k)).
Proof.
  intros Hm Hk. destruct m as [log [a|e|]]; cbn in *; auto.
  specialize (Hk a). destruct (k a) as [log' out]. cbn in *.
  apply Forall_app. auto.
Qed.

(** Walks through a task: splits at each [bind], takes every case of the
    world's answers, and checks the effects emitted on the way. *)
Ltac log_cases :=
  repeat first
    [ apply Forall_bind; [|intros ?]
    | match goal with
      | |- Forall _ (fst (match ?x with _ => _ end)) => destruct x
      end
    | progress cbn
    | constructor ].

Lemma submit_steps_send_trimmed pg w :
  Forall (sends_trimmed pg)
         (fst (submit_steps w (mkInputs (trim (sessionIdInput pg))
                                        (trim (deviceLabelInput pg))))).
Proof.
  unfold submit_steps, fetchFingerprinterJs, submitFingerprint, hash_prefix, await.
  log_cases.
Qed.

Lemma results_steps_send_trimmed pg w :
  Forall (sends_trimmed pg) (fst (results_steps w (trim (sessionIdInput pg)))).
Proof.
  unfold results_steps, fetchResults, displayResults.
  log_cases.
Qed.

Lemma handleSubmit_sends_trimmed pg w :
  Forall (sends_trimmed pg) (snd (handleSubmit pg w)).
Proof.
  unfold handleSubmit. destruct (isRunning pg); [constructor|].
  unfold validateInputs.
  destruct (is_empty (trim (sessionIdInput pg))); [repeat constructor|].
  destruct (is_empty (trim (deviceLabelInput pg))); [repeat constructor|].
  pose proof (submit_steps_send_trimmed pg w) as H.
  destruct (submit_steps w _) as [log [u|e|]]; cbn [fst snd] in *;
    repeat (apply Forall_app; split); auto; repeat constructor.
Qed.

Lemma handleResults_sends_trimmed pg w :
  Forall (sends_trimmed pg) (handleResults pg w).
Proof.
  unfold handleResults.
  destruct (is_empty (trim (sessionIdInput pg))); [repeat constructor|].
  pose proof (results_steps_send_trimmed pg w) as H.
  destruct (results_steps w _) as [log [u|e|]]; cbn [fst snd] in *;
    repeat (apply Forall_app; split); auto; repeat constructor.
Qed.

(** A submission that proceeds: the padded inputs reach [/collect] trimmed. *)
Example padded_inputs_are_submitted_trimmed :
  let pg := mkPage "  session-1 " " device-1  " false in
  let w := mkWorld (Some (mkResponse true 200 "script" None))
                   (fun _ => Resolved (VStr "abc"))
                   (Some (mkResponse true 200 "" (Some (VObj []))))
                   None in
  filter is_request (snd (handleSubmit pg w))
  = [FetchScript; RunSandbox "script"; PostCollect "session-1" "device-1" (VStr "abc")].
Proof. reflexivity. Qed.

(** ** The score *)

Lemma clamp_bounds x : (0 <= clamp x)%Q /\ (clamp x <= 1)%Q.
Proof.
  unfold clamp. split.
  - apply Q.le_max_l.
  - apply Q.max_lub; [discriminate | apply Q.le_min_l].
Qed.

Lemma total_bounds (points : list Q) :
  Forall (fun p => (0 <= p)%Q /\ (p <= 1)%Q) points ->
  (0 <= total points)%Q /\
  (total points <= inject_Z (Z.of_nat (List.length points)))%Q.
Proof.
  induction 1 as [|p points [Hlo Hhi] _ [IHlo IHhi]].
  - cbn. split; apply Qle_refl.
  - cbn [total fold_right List.length]. fold (total points).
    rewrite Nat2Z.inj_succ, <- Z.add_1_l, inject_Z_plus. split.
    + rewrite <- (Qplus_0_l 0). now apply Qplus_le_compat.
    + now apply Qplus_le_compat.
Qed.

Lemma device_points_bounds records ds :
  Forall (fun p => (0 <= p)%Q /\ (p <= 1)%Q) (map (device_points records) ds).
Proof.
  induction ds as [|d ds IH]; cbn; constructor; auto. apply clamp_bounds.
Qed.

(** C9.  For every sequence of records the session score lies between 0 and
    1, and for the empty sequence, which has no device, it is 0. *)
Theorem score_in_unit_interval (records : list DeviceRecord) :
  (0 <= score records)%Q /\ (score records <= 1)%Q /\ score [] = 0%Q.
Proof.
  split; [|split; [|reflexivity]]; unfold score;
    destruct (devices records) as [|d ds] eqn:E;
    try apply Qle_refl; try discriminate.
  - destruct (total_bounds _ (device_points_bounds records (d :: ds))) as [Hlo _].
    apply Qle_shift_div_l.
    + cbn [List.length]. rewrite Nat2Z.inj_succ. unfold Qlt. cbn. lia.
    + now rewrite Qmult_0_l.
  - destruct (total_bounds _ (device_points_bounds records (d :: ds))) as [_ Hhi].
    apply Qle_shift_div_r.
    + cbn [List.length]. rewrite Nat2Z.inj_succ. unfold Qlt. cbn. lia.
    + rewrite Qmult_1_l. now rewrite length_map in Hhi.
Qed.

(** * Further properties of the controller *)

(** ** One run of [executeInSandbox], whatever arrives *)

Lemma advance_absorbed st a T l :
  a <= T -> Forall (fun e => a <= at_time e) l ->
  advance T (run_events (advance a st) l) = advance T (run_events st l).
Proof.
  intros HaT Hl. destruct l as [|e l]; [now apply advance_twice|].
  inversion Hl as [|? ? He _]; subst.
  change (run_events (advance a st) (e :: l))
    with (run_events (dispatch (advance a st) e) l).
  change (run_events st (e :: l)) with (run_events (dispatch st e) l).
  unfold dispatch. now rewrite advance_twice.
Qed.

Lemma chronological_tail e l :
  chronological (e :: l) ->
  chronological l /\ Forall (fun x => at_time e <= at_time x) l.
Proof. intros H. inversion H; subst. auto. Qed.

Lemma foreign_events_dropped T l :
  chronological l -> Forall (fun e => at_time e <= T) l ->
  forall st, advance T (run_events st l)
             = advance T (run_events st (filter from_sandbox l)).
Proof.
  induction l as [|e l IH]; intros Hchr Hle st; [reflexivity|].
  destruct (chronological_tail _ _ Hchr) as [Htail Hafter].
  inversion Hle as [|? ? He Hrest]; subst.
  cbn [filter]. destruct (from_sandbox e) eqn:E.
  - change (run_events st (e :: l)) with (run_events (dispatch st e) l).
    change (run_events st (e :: filter from_sandbox l))
      with (run_events (dispatch st e) (filter from_sandbox l)).
    now apply IH.
  - change (run_events st (e :: l)) with (run_events (dispatch st e) l).
    rewrite dispatch_foreign by exact E.
    rewrite IH by assumption.
    apply advance_absorbed; [exact He|].
    rewrite Forall_forall in *. intros x Hx. apply filter_In in Hx. now apply Hafter.
Qed.

Lemma chronological_filter (f : event -> bool) l :
  chronological l -> chronological (filter f l).
Proof.
  induction l as [|e l IH]; intros H; [constructor|].
  destruct (chronological_tail _ _ H) as [Htail Hafter].
  cbn. destruct (f e); [|now apply IH].
  constructor; [now apply IH|].
  rewrite Forall_forall in *. intros x Hx. apply filter_In in Hx. now apply Hafter.
Qed.

Lemma filter_swap (f g : event -> bool) l :
  filter f (filter g l) = filter g (filter f l).
Proof.
  induction l as [|e l IH]; [reflexivity|]. cbn.
  destruct (g e) eqn:G, (f e) eqn:F; cbn; rewrite ?G, ?F, IH; reflexivity.
Qed.

Lemma filter_time_bound T (l : list event) :
  Forall (fun e => at_time e <= T) (filter (fun e => at_time e <=? T) l).
Proof.
  rewrite Forall_forall. intros e He. apply filter_In in He.
  now apply Z.leb_le.
Qed.

(** The next property, as a lemma of its own for the proofs that build on
    it. *)
Lemma state_without_foreign_events
        (st : run_state) (evs : list event) (T : Z) :
  chronological evs ->
  state_at T st evs = state_at T st (filter from_sandbox evs).
Proof.
  intros Hchr. unfold state_at.
  rewrite (filter_swap (fun e => at_time e <=? T) from_sandbox).
  apply foreign_events_dropped.
  - now apply chronological_filter.
  - apply filter_time_bound.
Qed.

(** X1.  Messages of windows other than the iframe's have no influence on a
    run: at every time the state of the run is the one it would have had if
    only the iframe's messages had arrived. *)
Theorem other_windows_cannot_influence_the_run
        (st : run_state) (evs : list event) (T : Z) :
  chronological evs ->
  state_at T st evs = state_at T st (filter from_sandbox evs).
Proof.
  intros Hchr. unfold state_at.
  rewrite (filter_swap (fun e => at_time e <=? T) from_sandbox).
  apply foreign_events_dropped.
  - now apply chronological_filter.
  - apply filter_time_bound.
Qed.

Lemma other_windows_cannot_influence_the_run_witness :
  state_at 200 (executeInSandbox 0 [] "js")
           [Message 10 HostWindow (hash_message (VStr "forged"));
            Message 50 SandboxWindow (hash_message (VStr "abc"));
            Message 90 (OtherWindow 2) (error_message (VStr "forged"))]
  = state_at 200 (executeInSandbox 0 [] "js")
             [Message 50 SandboxWindow (hash_message (VStr "abc"))].
Proof.
  apply (other_windows_cannot_influence_the_run
           (executeInSandbox 0 [] "js")
           [Message 10 HostWindow (hash_message (VStr "forged"));
            Message 50 SandboxWindow (hash_message (VStr "abc"));
            Message 90 (OtherWindow 2) (error_message (VStr "forged"))] 200).
  repeat constructor; cbn; lia.
Defined.

(** The next property, as a lemma of its own for the proofs that build on
    it. *)
Lemma first_sandbox_message_run
        (t0 : Z) (store : list (nat * string)) (js : string)
        (evs rest : list event) (m : event) (T : Z) :
  chronological evs ->
  filter from_sandbox evs = m :: rest ->
  at_time m < t0 + timeout_delay ->
  at_time m <= T ->
  state_at T (executeInSandbox t0 store js) evs
  = handleMessage (executeInSandbox t0 store js) SandboxWindow (data m).
Proof.
  intros Hchr Hf Hdue HT.
  rewrite state_without_foreign_events by exact Hchr.
  rewrite Hf. unfold state_at. cbn [filter].
  destruct (Z.leb_spec (at_time m) T); [|lia].
  change (run_events (executeInSandbox t0 store js)
                     (m :: filter (fun e => at_time e <=? T) rest))
    with (run_events (dispatch (executeInSandbox t0 store js) m)
                     (filter (fun e => at_time e <=? T) rest)).
  assert (Hm : from_sandbox m = true).
  { assert (In m (filter from_sandbox evs)) by (rewrite Hf; now left).
    now apply filter_In in H0. }
  assert (Hd : dispatch (executeInSandbox t0 store js) m
               = handleMessage (executeInSandbox t0 store js) SandboxWindow (data m)).
  { unfold dispatch. rewrite advance_idle.
    - cbn [listening executeInSandbox]. unfold from_sandbox in Hm.
      destruct (source m); try discriminate. reflexivity.
    - cbn. intros due E. injection E as <-. lia. }
  rewrite Hd. rewrite closed_run by apply handleMessage_closes.
  apply closed_advance, handleMessage_closes.
Qed.

(** X2.  The channel is one-shot: when the first message of the iframe
    arrives before the deadline, the run ends in the state [handleMessage]
    makes of that message, and nothing that arrives later, from the iframe
    or elsewhere, changes it. *)
Theorem first_message_of_the_iframe_decides
        (t0 : Z) (store : list (nat * string)) (js : string)
        (evs rest : list event) (m : event) (T : Z) :
  chronological evs ->
  filter from_sandbox evs = m :: rest ->
  at_time m < t0 + timeout_delay ->
  at_time m <= T ->
  state_at T (executeInSandbox t0 store js) evs
  = handleMessage (executeInSandbox t0 store js) SandboxWindow (data m).
Proof.
  intros Hchr Hf Hdue HT.
  rewrite state_without_foreign_events by exact Hchr.
  rewrite Hf. unfold state_at. cbn [filter].
  destruct (Z.leb_spec (at_time m) T); [|lia].
  change (run_events (executeInSandbox t0 store js)
                     (m :: filter (fun e => at_time e <=? T) rest))
    with (run_events (dispatch (executeInSandbox t0 store js) m)
                     (filter (fun e => at_time e <=? T) rest)).
  assert (Hm : from_sandbox m = true).
  { assert (In m (filter from_sandbox evs)) by (rewrite Hf; now left).
    now apply filter_In in H0. }
  assert (Hd : dispatch (executeInSandbox t0 store js) m
               = handleMessage (executeInSandbox t0 store js) SandboxWindow (data m)).
  { unfold dispatch. rewrite advance_idle.
    - cbn [listening executeInSandbox]. unfold from_sandbox in Hm.
      destruct (source m); try discriminate. reflexivity.
    - cbn. intros due E. injection E as <-. lia. }
  rewrite Hd. rewrite closed_run by apply handleMessage_closes.
  apply closed_advance, handleMessage_closes.
Qed.

Lemma first_message_of_the_iframe_decides_witness :
  promise (state_at 9000 (executeInSandbox 0 [] "js")
             [Message 50 SandboxWindow (hash_message (VStr "first"));
              Message 60 SandboxWindow (hash_message (VStr "second"));
              Message 70 SandboxWindow (error_message (VStr "third"))])
  = Resolved (VStr "first").
Proof.
  rewrite (first_message_of_the_iframe_decides 0 [] "js"
             [Message 50 SandboxWindow (hash_message (VStr "first"));
              Message 60 SandboxWindow (hash_message (VStr "second"));
              Message 70 SandboxWindow (error_message (VStr "third"))]
             [Message 60 SandboxWindow (hash_message (VStr "second"));
              Message 70 SandboxWindow (error_message (VStr "third"))]
             (Message 50 SandboxWindow (hash_message (VStr "first"))) 9000).
  - reflexivity.
  - repeat constructor; cbn; lia.
  - reflexivity.
  - reflexivity.
  - cbn; lia.
Defined.

Lemma filter_none (f : event -> bool) l :
  Forall (fun e => f e = false) l -> filter f l = [].
Proof.
  induction 1 as [|e l He _ IH]; [reflexivity|]. cbn. now rewrite He.
Qed.

Lemma chronological_split T T' l :
  chronological l -> T <= T' ->
  exists later,
    filter (fun e => at_time e <=? T') l
    = filter (fun e => at_time e <=? T) l ++ later /\
    Forall (fun e => T <= at_time e) later.
Proof.
  intros Hchr HT. induction l as [|e l IH].
  - exists []. split; [reflexivity | constructor].
  - destruct (chronological_tail _ _ Hchr) as [Htail Hafter].
    destruct (Z.leb_spec (at_time e) T) as [Hle|Hgt].
    + destruct (IH Htail) as (later & E & Hl). exists later. split; [|exact Hl].
      cbn [filter]. destruct (Z.leb_spec (at_time e) T); [|lia].
      destruct (Z.leb_spec (at_time e) T'); [|lia]. cbn. now rewrite E.
    + exists (filter (fun x => at_time x <=? T') (e :: l)). split.
      * assert (Hnone : filter (fun x => at_time x <=? T) (e :: l) = []).
        { apply filter_none. constructor.
          - destruct (Z.leb_spec (at_time e) T); [lia | reflexivity].
          - rewrite Forall_forall in *. intros x Hx. specialize (Hafter x Hx).
            destruct (Z.leb_spec (at_time x) T); [lia | reflexivity]. }
        now rewrite Hnone.
      * rewrite Forall_forall. intros x Hx. apply filter_In in Hx as [Hx _].
        destruct Hx as [<-|Hx]; [lia|].
        rewrite Forall_forall in Hafter. specialize (Hafter x Hx). lia.
Qed.

(** X3.  An outcome, once delivered, is final: if the promise is settled at
    time [T], it has the same state at every later time, whatever arrives in
    between. *)
Theorem a_settled_outcome_never_changes
        (st : run_state) (evs : list event) (T T' : Z) :
  chronological evs ->
  T <= T' ->
  promise (state_at T st evs) <> Pending ->
  promise (state_at T' st evs) = promise (state_at T st evs).
Proof.
  intros Hchr HT Hs. unfold state_at in *.
  destruct (chronological_split T T' evs Hchr HT) as (later & -> & Hl).
  rewrite run_events_app.
  rewrite <- advance_absorbed with (a := T) by assumption.
  rewrite settled_advance; [apply settled_run; exact Hs|].
  rewrite settled_run; exact Hs.
Qed.

Lemma a_settled_outcome_never_changes_witness :
  promise (state_at 7000 (executeInSandbox 0 [] "js")
             [Message 6000 SandboxWindow (hash_message (VStr "late"))])
  = promise (state_at 5000 (executeInSandbox 0 [] "js")
               [Message 6000 SandboxWindow (hash_message (VStr "late"))]).
Proof.
  apply (a_settled_outcome_never_changes (executeInSandbox 0 [] "js")
           [Message 6000 SandboxWindow (hash_message (VStr "late"))] 5000 7000).
  - repeat constructor.
  - lia.
  - discriminate.
Defined.

Lemma waiting_dispatch deadline st e :
  waiting_or_timed_out deadline st ->
  (from_sandbox e = true -> deadline <= at_time e) ->
  waiting_or_timed_out deadline (dispatch st e).
Proof.
  intros [[Ht Hp]|Hr] He.
  - destruct (from_sandbox e) eqn:E.
    + specialize (He eq_refl). right.
      assert (Hfire : promise (advance (at_time e) st)
                      = Rejected (NewError (VStr timeout_message))).
      { unfold advance. rewrite Ht.
        destruct (Z.leb_spec deadline (at_time e)); [|lia]. cbn. now rewrite Hp. }
      unfold dispatch. destruct (listening _); [|exact Hfire].
      rewrite settled_handleMessage; [exact Hfire | rewrite Hfire; discriminate].
    + rewrite dispatch_foreign by exact E. unfold advance. rewrite Ht.
      destruct (deadline <=? at_time e); [right; cbn; now rewrite Hp | left; auto].
  - right. rewrite settled_dispatch; [exact Hr | rewrite Hr; discriminate].
Qed.

Lemma waiting_run deadline l :
  Forall (fun e => from_sandbox e = true -> deadline <= at_time e) l ->
  forall st, waiting_or_timed_out deadline st ->
             waiting_or_timed_out deadline (run_events st l).
Proof.
  induction 1 as [|e l He _ IH]; intros st Hst; [exact Hst|].
  change (run_events st (e :: l)) with (run_events (dispatch st e) l).
  apply IH. now apply waiting_dispatch.
Qed.

(** The next property, as a lemma of its own for the proofs that build on
    it. *)
Lemma timeline_with_late_messages
        (t0 : Z) (store : list (nat * string)) (js : string)
        (evs : list event) (T : Z) :
  Forall (fun e => from_sandbox e = true -> t0 + timeout_delay <= at_time e) evs ->
  promise (state_at T (executeInSandbox t0 store js) evs)
  = if T <? t0 + timeout_delay then Pending
    else Rejected (NewError (VStr timeout_message)).
Proof.
  intros Hlate. unfold state_at.
  set (l := filter (fun e => at_time e <=? T) evs).
  assert (Hl : Forall (fun e => from_sandbox e = true -> t0 + timeout_delay <= at_time e) l).
  { rewrite Forall_forall in *. intros e He. apply filter_In in He as [He _]. auto. }
  destruct (Z.ltb_spec T (t0 + timeout_delay)) as [Hbefore|Hafter].
  - rewrite foreign_run.
    + rewrite advance_idle; [reflexivity|].
      cbn. intros due E. injection E as <-. exact Hbefore.
    + rewrite Forall_forall in *. intros e He. pose proof (Hl e He) as Hs.
      apply filter_In in He as [_ Ht]. apply Z.leb_le in Ht.
      split; [|exact Ht]. destruct (from_sandbox e); [|reflexivity].
      specialize (Hs eq_refl). lia.
  - destruct (waiting_run (t0 + timeout_delay) l Hl (executeInSandbox t0 store js))
      as [[Ht Hp]|Hr].
    + left. split; reflexivity.
    + unfold advance. rewrite Ht.
      destruct (Z.leb_spec (t0 + timeout_delay) T); [|lia]. cbn. now rewrite Hp.
    + rewrite settled_advance; [exact Hr | rewrite Hr; discriminate].
Qed.

(** X4.  A result that comes too late loses: when no message of the iframe
    arrives before the deadline, the call is pending until the deadline and
    rejected with the timeout error from the deadline on, even if result
    messages arrive afterwards. *)
Theorem late_messages_lose_to_the_timeout
        (t0 : Z) (store : list (nat * string)) (js : string)
        (evs : list event) (T : Z) :
  Forall (fun e => from_sandbox e = true -> t0 + timeout_delay <= at_time e) evs ->
  promise (state_at T (executeInSandbox t0 store js) evs)
  = if T <? t0 + timeout_delay then Pending
    else Rejected (NewError (VStr timeout_message)).
Proof.
  intros Hlate. unfold state_at.
  set (l := filter (fun e => at_time e <=? T) evs).
  assert (Hl : Forall (fun e => from_sandbox e = true -> t0 + timeout_delay <= at_time e) l).
  { rewrite Forall_forall in *. intros e He. apply filter_In in He as [He _]. auto. }
  destruct (Z.ltb_spec T (t0 + timeout_delay)) as [Hbefore|Hafter].
  - rewrite foreign_run.
    + rewrite advance_idle; [reflexivity|].
      cbn. intros due E. injection E as <-. exact Hbefore.
    + rewrite Forall_forall in *. intros e He. pose proof (Hl e He) as Hs.
      apply filter_In in He as [_ Ht]. apply Z.leb_le in Ht.
      split; [|exact Ht]. destruct (from_sandbox e); [|reflexivity].
      specialize (Hs eq_refl). lia.
  - destruct (waiting_run (t0 + timeout_delay) l Hl (executeInSandbox t0 store js))
      as [[Ht Hp]|Hr].
    + left. split; reflexivity.
    + unfold advance. rewrite Ht.
      destruct (Z.leb_spec (t0 + timeout_delay) T); [|lia]. cbn. now rewrite Hp.
    + rewrite settled_advance; [exact Hr | rewrite Hr; discriminate].
Qed.

Lemma late_messages_lose_to_the_timeout_witness :
  promise (state_at 4999 (executeInSandbox 0 [] "js")
             [Message 5000 SandboxWindow (hash_message (VStr "late"))]) = Pending /\
  promise (state_at 9000 (executeInSandbox 0 [] "js")
             [Message 5000 SandboxWindow (hash_message (VStr "late"))])
  = Rejected (NewError (VStr timeout_message)).
Proof.
  assert (H : Forall (fun e => from_sandbox e = true -> 0 + timeout_delay <= at_time e)
                     [Message 5000 SandboxWindow (hash_message (VStr "late"))]).
  { constructor; [|constructor]. cbn. intros _. unfold timeout_delay. lia. }
  split.
  - exact (late_messages_lose_to_the_timeout 0 [] "js" _ 4999 H).
  - exact (late_messages_lose_to_the_timeout 0 [] "js" _ 9000 H).
Defined.

Lemma explained_advance T evs st t :
  explained T evs (promise st) -> explained T evs (promise (advance t st)).
Proof.
  intros H. unfold advance. destruct (timeoutId st) as [due| |]; try exact H.
  destruct (due <=? t); [|exact H]. cbn.
  destruct (promise st); cbn; auto.
Qed.

Lemma explained_handleMessage T evs st e :
  In e evs -> at_time e <= T ->
  explained T evs (promise st) ->
  explained T evs (promise (handleMessage st (source e) (data e))).
Proof.
  intros Hin Ht H. unfold handleMessage.
  destruct (not_sandbox (source e)) eqn:Hs; [exact H|].
  assert (Hfrom : from_sandbox e = true) by (unfold from_sandbox; now rewrite Hs).
  fold (recognised (data e)).
  destruct (recognised (data e)) eqn:Hrec; [|exact H].
  destruct (truthy (get (data e) "error")) eqn:Herr; cbn;
    destruct (promise st); cbn; auto.
  - right. exists e. repeat split; auto.
  - exists e. repeat split; auto.
Qed.

Lemma explained_run T evs l :
  Forall (fun e => In e evs /\ at_time e <= T) l ->
  forall st, explained T evs (promise st) ->
             explained T evs (promise (run_events st l)).
Proof.
  induction 1 as [|e l [Hin Ht] _ IH]; intros st H; [exact H|].
  change (run_events st (e :: l)) with (run_events (dispatch st e) l).
  apply IH. unfold dispatch. destruct (listening _).
  - apply explained_handleMessage; auto. now apply explained_advance.
  - now apply explained_advance.
Qed.

(** X5.  Every outcome has a source.  At any time, a resolved call carries
    the [hash] field of a result message that the iframe's window has sent by
    then, and a rejected call carries either the timeout error or the truthy
    [error] field of such a message; nothing else ever settles the promise. *)
Theorem every_outcome_comes_from_the_iframe_or_the_timer
        (t0 : Z) (store : list (nat * string)) (js : string)
        (evs : list event) (T : Z) :
  explained T evs (promise (state_at T (executeInSandbox t0 store js) evs)).
Proof.
  unfold state_at. apply explained_advance. apply explained_run.
  - rewrite Forall_forall. intros e He. apply filter_In in He as [He Ht].
    split; [exact He | now apply Z.leb_le].
  - exact I.
Qed.

Lemma chronological_first_sandbox evs m rest :
  chronological evs -> filter from_sandbox evs = m :: rest ->
  Forall (fun e => from_sandbox e = true -> at_time m <= at_time e) evs.
Proof.
  intros Hchr Hf. pose proof (chronological_filter from_sandbox evs Hchr) as Hs.
  rewrite Hf in Hs. destruct (chronological_tail _ _ Hs) as [_ Hafter].
  rewrite Forall_forall in *. intros e He Hfrom.
  assert (Hin : In e (m :: rest)) by (rewrite <- Hf; apply filter_In; auto).
  destruct Hin as [<-|Hin]; [lia | now apply Hafter].
Qed.

Lemma horizon_bounds t0 evs :
  t0 + timeout_delay <= horizon t0 evs /\
  Forall (fun e => at_time e <= horizon t0 evs) evs.
Proof.
  unfold horizon. induction evs as [|e evs [IH1 IH2]]; cbn.
  - split; [lia | constructor].
  - split; [lia|]. constructor; [lia|].
    eapply Forall_impl; [|exact IH2]. cbn. intros; lia.
Qed.

Lemma pending_after_handleMessage t0 store js d :
  promise (handleMessage (executeInSandbox t0 store js) SandboxWindow d) = Pending
  <-> recognised d = false.
Proof.
  unfold handleMessage. cbn [not_sandbox]. fold (recognised d).
  destruct (recognised d); [|tauto].
  destruct (truthy (get d "error")); cbn; split; discriminate.
Qed.

(** The next property, as a lemma of its own for the proofs that build on
    it. *)
Lemma hang_characterisation
        (t0 : Z) (store : list (nat * string)) (js : string) (evs : list event) :
  chronological evs ->
  final_outcome t0 store js evs = Pending <->
  exists m rest,
    filter from_sandbox evs = m :: rest /\
    at_time m < t0 + timeout_delay /\
    recognised (data m) = false.
Proof.
  intros Hchr. unfold final_outcome.
  destruct (horizon_bounds t0 evs) as [Hdead Hall].
  destruct (filter from_sandbox evs) as [|m rest] eqn:Hf.
  - rewrite timeline_with_late_messages.
    + destruct (Z.ltb_spec (horizon t0 evs) (t0 + timeout_delay)); [lia|].
      split; [discriminate | intros (m & rest & E & _); discriminate].
    + apply filter_foreign in Hf. eapply Forall_impl; [|exact Hf].
      cbn. intros e -> H. discriminate.
  - assert (Hm : In m evs).
    { assert (In m (filter from_sandbox evs)) by (rewrite Hf; now left).
      now apply filter_In in H. }
    destruct (Z.lt_ge_cases (at_time m) (t0 + timeout_delay)) as [Hbefore|Hlate].
    + rewrite (first_sandbox_message_run t0 store js evs rest m); auto.
      * rewrite pending_after_handleMessage. split.
        -- intros H. exists m, rest. auto.
        -- intros (m' & rest' & E & _ & H). now injection E as <- <-.
      * rewrite Forall_forall in Hall. now apply Hall.
    + rewrite timeline_with_late_messages.
      * destruct (Z.ltb_spec (horizon t0 evs) (t0 + timeout_delay)); [lia|].
        split; [discriminate|].
        intros (m' & rest' & E & Hlt & _). injection E as <- <-. lia.
      * eapply Forall_impl; [|exact (chronological_first_sandbox evs m rest Hchr Hf)].
        cbn. intros e H Hfrom. specialize (H Hfrom). lia.
Qed.

(** X6.  When a call never settles.  The promise of [executeInSandbox] stays
    pending for ever exactly when the first message of the iframe arrives
    before the deadline and is not a result message (its data is falsy or
    its [type] is not ['fingerprint-result']); in every other case the call
    ends resolved or rejected. *)
Theorem the_call_hangs_exactly_on_an_unrecognised_first_message
        (t0 : Z) (store : list (nat * string)) (js : string) (evs : list event) :
  chronological evs ->
  final_outcome t0 store js evs = Pending <->
  exists m rest,
    filter from_sandbox evs = m :: rest /\
    at_time m < t0 + timeout_delay /\
    recognised (data m) = false.
Proof.
  intros Hchr. unfold final_outcome.
  destruct (horizon_bounds t0 evs) as [Hdead Hall].
  destruct (filter from_sandbox evs) as [|m rest] eqn:Hf.
  - rewrite timeline_with_late_messages.
    + destruct (Z.ltb_spec (horizon t0 evs) (t0 + timeout_delay)); [lia|].
      split; [discriminate | intros (m & rest & E & _); discriminate].
    + apply filter_foreign in Hf. eapply Forall_impl; [|exact Hf].
      cbn. intros e -> H. discriminate.
  - assert (Hm : In m evs).
    { assert (In m (filter from_sandbox evs)) by (rewrite Hf; now left).
      now apply filter_In in H. }
    destruct (Z.lt_ge_cases (at_time m) (t0 + timeout_delay)) as [Hbefore|Hlate].
    + rewrite (first_sandbox_message_run t0 store js evs rest m); auto.
      * rewrite pending_after_handleMessage. split.
        -- intros H. exists m, rest. auto.
        -- intros (m' & rest' & E & _ & H). now injection E as <- <-.
      * rewrite Forall_forall in Hall. now apply Hall.
    + rewrite timeline_with_late_messages.
      * destruct (Z.ltb_spec (horizon t0 evs) (t0 + timeout_delay)); [lia|].
        split; [discriminate|].
        intros (m' & rest' & E & Hlt & _). injection E as <- <-. lia.
      * eapply Forall_impl; [|exact (chronological_first_sandbox evs m rest Hchr Hf)].
        cbn. intros e H Hfrom. specialize (H Hfrom). lia.
Qed.

Lemma the_call_hangs_exactly_on_an_unrecognised_first_message_witness :
  final_outcome 0 [] "js"
    [Message 10 HostWindow (hash_message (VStr "forged"));
     Message 100 SandboxWindow (VStr "ready");
     Message 200 SandboxWindow (hash_message (VStr "abc"))]
  = Pending.
Proof.
  apply (the_call_hangs_exactly_on_an_unrecognised_first_message 0 [] "js"
           [Message 10 HostWindow (hash_message (VStr "forged"));
            Message 100 SandboxWindow (VStr "ready");
            Message 200 SandboxWindow (hash_message (VStr "abc"))]).
  - repeat constructor; cbn; lia.
  - exists (Message 100 SandboxWindow (VStr "ready")),
           [Message 200 SandboxWindow (hash_message (VStr "abc"))].
    repeat split.
Defined.

(** ** One submission *)



(** The next property, as a lemma of its own for the proofs that build on
    it. *)
Lemma submission_lock
        (pg : page) (w : world) (d : dom) :
  isRunning pg = false ->
  valid_inputs pg = true ->
  fst (handleSubmit pg w) = set_running (sticks w) pg /\
  submit_disabled (paint d (snd (handleSubmit pg w))) = sticks w /\
  submit_label (paint d (snd (handleSubmit pg w)))
  = (if sticks w then "Running..." else "Submit Fingerprint")%string.
Proof.
  unfold valid_inputs, sticks. intros Hrun Hvalid.
  apply andb_true_iff in Hvalid as [H1 H2]. apply negb_true_iff in H1, H2.
  unfold handleSubmit, validateInputs. rewrite Hrun, H1, H2.
  unfold submit_steps, fetchFingerprinterJs, submitFingerprint, hash_prefix, await.
  destruct (script_response w) as [[[] ? ? ?]|]; cbn; auto.
  destruct (sandbox w text0) as [|[]|]; cbn; auto;
    destruct (collect_response w) as [[[] ? ? []]|]; cbn; auto.
Qed.

(** X14.  The lock of a submission.  A submission that starts (nothing
    running, both inputs filled) ends with [isRunning] false and the submit
    button enabled again in every case but one: when the promise of
    [executeInSandbox] never settles, the flag stays true and the button
    stays disabled, labelled 'Running...'. *)
Theorem a_submission_releases_its_lock_unless_the_sandbox_hangs
        (pg : page) (w : world) (d : dom) :
  isRunning pg = false ->
  valid_inputs pg = true ->
  fst (handleSubmit pg w) = set_running (sticks w) pg /\
  submit_disabled (paint d (snd (handleSubmit pg w))) = sticks w /\
  submit_label (paint d (snd (handleSubmit pg w)))
  = (if sticks w then "Running..." else "Submit Fingerprint")%string.
Proof.
  unfold valid_inputs, sticks. intros Hrun Hvalid.
  apply andb_true_iff in Hvalid as [H1 H2]. apply negb_true_iff in H1, H2.
  unfold handleSubmit, validateInputs. rewrite Hrun, H1, H2.
  unfold submit_steps, fetchFingerprinterJs, submitFingerprint, hash_prefix, await.
  destruct (script_response w) as [[[] ? ? ?]|]; cbn; auto.
  destruct (sandbox w text0) as [|[]|]; cbn; auto;
    destruct (collect_response w) as [[[] ? ? []]|]; cbn; auto.
Qed.

Lemma a_submission_releases_its_lock_unless_the_sandbox_hangs_witness :
  let pg := mkPage "session-1" "device-1" false in
  let w := mkWorld (Some (mkResponse true 200 "script" None))
                   (fun _ => Pending) None None in
  let d := mkDom None "" None false "Submit Fingerprint" false "View Results" false in
  fst (handleSubmit pg w) = mkPage "session-1" "device-1" true /\
  submit_disabled (paint d (snd (handleSubmit pg w))) = true.
Proof.
  cbn zeta.
  destruct (a_submission_releases_its_lock_unless_the_sandbox_hangs
              (mkPage "session-1" "device-1" false)
              (mkWorld (Some (mkResponse true 200 "script" None))
                       (fun _ => Pending) None None)
              (mkDom None "" None false "Submit Fingerprint" false "View Results" false)
              eq_refl eq_refl) as (H1 & H2 & _).
  split; [exact H1 | exact H2].
Defined.





(** ** A whole visit of the page *)

Lemma handleResults_spares_the_submission pg w d :
  filter is_submit_request (handleResults pg w) = [] /\
  submit_disabled (paint d (handleResults pg w)) = submit_disabled d.
Proof.
  unfold handleResults.
  destruct (is_empty (trim (sessionIdInput pg))); [split; reflexivity|].
  unfold results_steps, fetchResults, displayResults.
  destruct (results_response w) as [[[] ? ? [body|]]|]; cbn; auto.
  destruct (nullish body); cbn; auto.
  destruct (nullish (get body "data")); cbn; auto.
  destruct (nullish (get (get body "data") "breakdown")); cbn; auto.
Qed.

Lemma handleSubmit_keeps_the_mirror pg w d :
  isRunning pg = submit_disabled d ->
  isRunning (fst (handleSubmit pg w))
  = submit_disabled (paint d (snd (handleSubmit pg w))).
Proof.
  intros H. destruct (isRunning pg) eqn:Hrun.
  - unfold handleSubmit. rewrite Hrun. cbn. now rewrite Hrun.
  - destruct (valid_inputs pg) eqn:Hv.
    + destruct (submission_lock
                  pg w d Hrun Hv) as (-> & -> & _).
      reflexivity.
    + unfold handleSubmit, validateInputs. rewrite Hrun.
      unfold valid_inputs in Hv.
      destruct (is_empty (trim (sessionIdInput pg))); cbn; [now rewrite Hrun|].
      destruct (is_empty (trim (deviceLabelInput pg))); cbn; [now rewrite Hrun|].
      discriminate.
Qed.

Lemma on_event_keeps_the_mirror st ev :
  isRunning (fst st) = submit_disabled (snd st) ->
  isRunning (fst (fst (on_event st ev)))
  = submit_disabled (snd (fst (on_event st ev))).
Proof.
  destruct st as [pg d], ev as [e w]. cbn [fst snd]. intros H.
  pose proof (handleSubmit_keeps_the_mirror pg w d H) as Hs.
  destruct e as [| |target key|sid label]; cbn [on_event].
  - destruct (handleSubmit pg w). exact Hs.
  - cbn [fst snd]. rewrite H.
    symmetry. apply handleResults_spares_the_submission.
  - destruct (key =? "Enter")%string; [|exact H].
    destruct (handleSubmit pg w). exact Hs.
  - exact H.
Qed.

(** X18.  The submit button mirrors [isRunning].  On a page where the button
    is disabled exactly when a submission is running, as it is when the page
    has just loaded, this stays so through every sequence of clicks, key
    presses and edits. *)
Theorem the_submit_button_mirrors_isRunning
        (st : page * dom) (evs : list (ui_event * world)) :
  isRunning (fst st) = submit_disabled (snd st) ->
  isRunning (fst (fst (visit st evs)))
  = submit_disabled (snd (fst (visit st evs))).
Proof.
  revert st. induction evs as [|ev evs IH]; intros st H; [exact H|].
  cbn [visit]. pose proof (on_event_keeps_the_mirror st ev H) as Hstep.
  destruct (on_event st ev) as [st' log]. cbn [fst] in Hstep.
  specialize (IH st' Hstep). destruct (visit st' evs) as [st'' log']. exact IH.
Qed.

Lemma the_submit_button_mirrors_isRunning_witness :
  let d := mkDom None "" None false "Submit Fingerprint" false "View Results" false in
  let hangs := mkWorld (Some (mkResponse true 200 "script" None))
                       (fun _ => Pending) None None in
  let st := fst (visit (mkPage "" "" false, d)
                       [(Edit "session-1" "device-1", hangs);
                        (KeyPress DeviceLabelField "Enter", hangs);
                        (ClickResults, hangs)]) in
  isRunning (fst st) = submit_disabled (snd st).
Proof.
  cbn zeta.
  apply (the_submit_button_mirrors_isRunning
           (mkPage "" "" false,
            mkDom None "" None false "Submit Fingerprint" false "View Results" false)).
  reflexivity.
Defined.

Lemma on_event_locked st ev :
  isRunning (fst st) = true ->
  isRunning (fst (fst (on_event st ev))) = true /\
  filter is_submit_request (snd (on_event st ev)) = [].
Proof.
  destruct st as [pg d], ev as [e w]. cbn [fst snd]. intros H.
  assert (Hs : handleSubmit pg w = (pg, [])) by (unfold handleSubmit; now rewrite H).
  destruct e as [| |target key|sid label]; cbn [on_event].
  - rewrite Hs. auto.
  - cbn [fst snd]. split; [exact H | apply (handleResults_spares_the_submission pg w d)].
  - destruct (key =? "Enter")%string; [rewrite Hs|]; auto.
  - auto.
Qed.

(** The next property, as a lemma of its own for the proofs that build on
    it. *)
Lemma locked_visit
        (st : page * dom) (evs : list (ui_event * world)) :
  isRunning (fst st) = true ->
  isRunning (fst (fst (visit st evs))) = true /\
  filter is_submit_request (snd (visit st evs)) = [].
Proof.
  revert st. induction evs as [|ev evs IH]; intros st H; [auto|].
  cbn [visit]. destruct (on_event_locked st ev H) as [Hrun Hlog].
  destruct (on_event st ev) as [st' log]. cbn [fst snd] in *.
  destruct (IH st' Hrun) as [Hrun' Hlog'].
  destruct (visit st' evs) as [st'' log']. cbn [fst snd] in *.
  split; [exact Hrun'|]. now rewrite filter_app, Hlog, Hlog'.
Qed.

(** X19.  A hanging run locks the page.  Once [isRunning] is true and stays
    so because the sandbox promise never settles, no click and no Enter key
    starts another submission: through every further sequence of events the
    script is never fetched again, the sandbox never run again and nothing
    posted to [/collect]; only results queries still go out. *)
Theorem a_running_submission_blocks_every_other
        (st : page * dom) (evs : list (ui_event * world)) :
  isRunning (fst st) = true ->
  isRunning (fst (fst (visit st evs))) = true /\
  filter is_submit_request (snd (visit st evs)) = [].
Proof.
  revert st. induction evs as [|ev evs IH]; intros st H; [auto|].
  cbn [visit]. destruct (on_event_locked st ev H) as [Hrun Hlog].
  destruct (on_event st ev) as [st' log]. cbn [fst snd] in *.
  destruct (IH st' Hrun) as [Hrun' Hlog'].
  destruct (visit st' evs) as [st'' log']. cbn [fst snd] in *.
  split; [exact Hrun'|]. now rewrite filter_app, Hlog, Hlog'.
Qed.

Lemma a_running_submission_blocks_every_other_witness :
  let d := mkDom None "" None false "Submit Fingerprint" false "View Results" false in
  let hangs := mkWorld (Some (mkResponse true 200 "script" None))
                       (fun _ => Pending) None None in
  let fine := mkWorld (Some (mkResponse true 200 "script" None))
                      (fun _ => Resolved (VStr "abc"))
                      (Some (mkResponse true 200 "" (Some (VObj [])))) None in
  let stuck := fst (visit (mkPage "session-1" "device-1" false, d)
                          [(ClickSubmit, hangs)]) in
  filter is_submit_request
         (snd (visit stuck [(ClickSubmit, fine);
                            (KeyPress SessionIdField "Enter", fine);
                            (ClickResults, fine)]))
  = [].
Proof.
  cbn zeta.
  apply (a_running_submission_blocks_every_other
           (fst (visit (mkPage "session-1" "device-1" false,
                        mkDom None "" None false "Submit Fingerprint" false
                              "View Results" false)
                       [(ClickSubmit,
                         mkWorld (Some (mkResponse true 200 "script" None))
                                 (fun _ => Pending) None None)]))).
  reflexivity.
Defined.

Lemma paint_keeps_hidden d log :
  status_display d = Some "none"%string ->
  status_display (paint d log) = Some "none"%string.
Proof.
  revert d. induction log as [|x log IH]; intros d H; [exact H|].
  unfold paint in *. cbn [fold_left]. apply IH. destruct x; cbn; auto.
Qed.

Lemma paint_hides d log :
  In HideStatus log -> status_display (paint d log) = Some "none"%string.
Proof.
  revert d. induction log as [|x log IH]; intros d H; [destruct H|].
  unfold paint in *. cbn [fold_left]. destruct H as [-> | H].
  - apply (paint_keeps_hidden (hideStatus d) log). reflexivity.
  - now apply IH.
Qed.

(** X20.  Once hidden, the status stays hidden.  [hideStatus] sets the
    inline [display] of the status element to ['none'] and [showStatus]
    never sets it back: after a submission that starts, or a results query
    with a session id, the inline display is ['none'] although a status has
    been written since, and it remains ['none'] through everything the
    controller does later. *)
Theorem the_status_element_stays_hidden
        (pg : page) (w : world) (d : dom) (later : list effect) :
  (isRunning pg = false -> valid_inputs pg = true ->
   status_display (paint (paint d (snd (handleSubmit pg w))) later)
   = Some "none"%string /\
   exists shown, status_shown (paint d (snd (handleSubmit pg w))) = Some shown) /\
  (is_empty (trim (sessionIdInput pg)) = false ->
   status_display (paint (paint d (handleResults pg w)) later)
   = Some "none"%string /\
   exists shown, status_shown (paint d (handleResults pg w)) = Some shown) /\
  (status_display d = Some "none"%string ->
   status_display (paint d later) = Some "none"%string).
Proof.
  split; [|split].
  - unfold valid_inputs. intros Hrun Hvalid.
    apply andb_true_iff in Hvalid as [H1 H2]. apply negb_true_iff in H1, H2.
    unfold handleSubmit, validateInputs. rewrite Hrun, H1, H2.
    split.
    + apply paint_keeps_hidden, paint_hides.
      destruct (submit_steps w _) as [log [u|e|]]; cbn; auto.
    + unfold submit_steps, fetchFingerprinterJs, submitFingerprint, hash_prefix, await.
      destruct (script_response w) as [[[] ? ? ?]|]; cbn; eauto.
      destruct (sandbox w text0) as [|[]|]; cbn; eauto;
        destruct (collect_response w) as [[[] ? ? []]|]; cbn; eauto.
  - intros Hsid. unfold handleResults. rewrite Hsid. split.
    + apply paint_keeps_hidden, paint_hides.
      destruct (results_steps w _) as [log [u|e|]]; cbn; auto.
    + unfold results_steps, fetchResults, displayResults.
      destruct (results_response w) as [[[] ? ? [body|]]|]; cbn; eauto.
      destruct (nullish body); cbn; eauto.
      destruct (nullish (get body "data")); cbn; eauto.
      destruct (nullish (get (get body "data") "breakdown")); cbn; eauto.
  - apply paint_keeps_hidden.
Qed.

(** ** The rendered list of devices *)

Lemma occurrences_app c a b :
  occurrences c (a ++ b)%string = (occurrences c a + occurrences c b)%nat.
Proof.
  induction a as [|x a IH]; [reflexivity|]. cbn. rewrite IH. lia.
Qed.

Lemma escape_char_brackets c :
  occurrences "<" (escape_char c) = 0%nat /\
  occurrences ">" (escape_char c) = 0%nat.
Proof.
  unfold escape_char.
  destruct (Nat.eqb_spec (nat_of_ascii c) 38); [split; reflexivity|].
  destruct (Nat.eqb_spec (nat_of_ascii c) 60) as [E60|N60]; [split; reflexivity|].
  destruct (Nat.eqb_spec (nat_of_ascii c) 62) as [E62|N62]; [split; reflexivity|].
  destruct (Nat.eqb_spec (nat_of_ascii c) 160); [split; reflexivity|].
  cbn. split.
  - destruct (Ascii.eqb_spec c "<"); [subst c; now elim N60 | reflexivity].
  - destruct (Ascii.eqb_spec c ">"); [subst c; now elim N62 | reflexivity].
Qed.

(** The next property, as a lemma of its own for the proofs that build on
    it. *)
Lemma escapeHtml_brackets (text : string) :
  occurrences "<" (escapeHtml text) = 0%nat /\
  occurrences ">" (escapeHtml text) = 0%nat /\
  (occurrences "&" text = 0%nat -> occurrences "<" text = 0%nat ->
   occurrences ">" text = 0%nat -> occurrences (ascii_of_nat 160) text = 0%nat ->
   escapeHtml text = text).
Proof.
  induction text as [|c text (IH1 & IH2 & IH3)]; [auto|].
  cbn [escapeHtml]. rewrite !occurrences_app, IH1, IH2.
  destruct (escape_char_brackets c) as [-> ->]. repeat split; auto.
  cbn [occurrences]. intros Ha Hl Hg Hn.
  assert (Hc : escape_char c = String c EmptyString).
  { unfold escape_char.
    destruct (Nat.eqb_spec (nat_of_ascii c) 38) as [E|_].
    { apply (f_equal ascii_of_nat) in E. rewrite ascii_nat_embedding in E.
      subst c. discriminate Ha. }
    destruct (Nat.eqb_spec (nat_of_ascii c) 60) as [E|_].
    { apply (f_equal ascii_of_nat) in E. rewrite ascii_nat_embedding in E.
      subst c. discriminate Hl. }
    destruct (Nat.eqb_spec (nat_of_ascii c) 62) as [E|_].
    { apply (f_equal ascii_of_nat) in E. rewrite ascii_nat_embedding in E.
      subst c. discriminate Hg. }
    destruct (Nat.eqb_spec (nat_of_ascii c) 160) as [E|_].
    { apply (f_equal ascii_of_nat) in E. rewrite ascii_nat_embedding in E.
      subst c. discriminate Hn. }
    reflexivity. }
  rewrite Hc. cbn. f_equal. apply IH3; lia.
Qed.

(** X21.  [escapeHtml] returns a text without [<] and without [>], whatever
    it is given, and returns a text free of [&], [<], [>] and no-break
    spaces unchanged. *)
Theorem escapeHtml_leaves_no_angle_bracket (text : string) :
  occurrences "<" (escapeHtml text) = 0%nat /\
  occurrences ">" (escapeHtml text) = 0%nat /\
  (occurrences "&" text = 0%nat -> occurrences "<" text = 0%nat ->
   occurrences ">" text = 0%nat -> occurrences (ascii_of_nat 160) text = 0%nat ->
   escapeHtml text = text).
Proof.
  induction text as [|c text (IH1 & IH2 & IH3)]; [auto|].
  cbn [escapeHtml]. rewrite !occurrences_app, IH1, IH2.
  destruct (escape_char_brackets c) as [-> ->]. repeat split; auto.
  cbn [occurrences]. intros Ha Hl Hg Hn.
  assert (Hc : escape_char c = String c EmptyString).
  { unfold escape_char.
    destruct (Nat.eqb_spec (nat_of_ascii c) 38) as [E|_].
    { apply (f_equal ascii_of_nat) in E. rewrite ascii_nat_embedding in E.
      subst c. discriminate Ha. }
    destruct (Nat.eqb_spec (nat_of_ascii c) 60) as [E|_].
    { apply (f_equal ascii_of_nat) in E. rewrite ascii_nat_embedding in E.
      subst c. discriminate Hl. }
    destruct (Nat.eqb_spec (nat_of_ascii c) 62) as [E|_].
    { apply (f_equal ascii_of_nat) in E. rewrite ascii_nat_embedding in E.
      subst c. discriminate Hg. }
    destruct (Nat.eqb_spec (nat_of_ascii c) 160) as [E|_].
    { apply (f_equal ascii_of_nat) in E. rewrite ascii_nat_embedding in E.
      subst c. discriminate Hn. }
    reflexivity. }
  rewrite Hc. cbn. f_equal. apply IH3; lia.
Qed.

Lemma digits_have_no_bracket (u : Decimal.uint) :
  occurrences "<" (DecimalString.NilEmpty.string_of_uint u) = 0%nat /\
  occurrences ">" (DecimalString.NilEmpty.string_of_uint u) = 0%nat.
Proof. induction u as [|u [? ?]|u [? ?]|u [? ?]|u [? ?]|u [? ?]|u [? ?]|u [? ?]|u [? ?]|u [? ?]|u [? ?]]; cbn; auto. Qed.

Lemma spaces_have_no_bracket n :
  occurrences "<" (spaces n) = 0%nat /\ occurrences ">" (spaces n) = 0%nat.
Proof. induction n as [|n [? ?]]; cbn; auto. Qed.

Lemma device_item_brackets index device :
  occurrences "<" (device_item index device) = 8%nat /\
  occurrences ">" (device_item index device) = 8%nat.
Proof.
  unfold device_item, decimal. rewrite !occurrences_app.
  destruct (escapeHtml_brackets (device_label device)) as (-> & -> & _).
  destruct (escapeHtml_brackets (fingerprint_hash device)) as (-> & -> & _).
  destruct (digits_have_no_bracket (Nat.to_uint (index + 1))) as [-> ->].
  destruct (spaces_have_no_bracket 16) as [-> ->].
  destruct (spaces_have_no_bracket 20) as [-> ->].
  destruct (spaces_have_no_bracket 12) as [-> ->].
  split; reflexivity.
Qed.

Lemma device_items_brackets devices :
  forall index,
    occurrences "<" (device_items index devices) = (8 * List.length devices)%nat /\
    occurrences ">" (device_items index devices) = (8 * List.length devices)%nat.
Proof.
  induction devices as [|device devices IH]; intros index; [split; reflexivity|].
  cbn [device_items List.length]. rewrite !occurrences_app.
  destruct (device_item_brackets index device) as [-> ->].
  destruct (IH (S index)) as [-> ->]. lia.
Qed.

(** X22.  No label and no hash can add markup to the devices list.  The HTML
    assigned to the list holds exactly the tags of the template, eight per
    device (two for the placeholder of an empty list), whatever the labels
    and hashes contain. *)
Theorem devices_list_markup_is_that_of_the_template (devices : list DeviceRecord) :
  let tags := match devices with
              | [] => 2%nat
              | _ => (8 * List.length devices)%nat
              end in
  occurrences "<" (devices_html devices) = tags /\
  occurrences ">" (devices_html devices) = tags.
Proof.
  cbn zeta. destruct devices as [|device devices]; [split; reflexivity|].
  apply (device_items_brackets (device :: devices) 0).
Qed.

Example devices_list_with_markup_in_a_label :
  devices_html [mkRecord "<b>x</b>" "a&b"]
  = (line_break ++ spaces 16 ++ "<div class=" ++ double_quote ++ "device-item"
     ++ double_quote ++ ">"
     ++ line_break ++ spaces 20 ++ "<strong>#1</strong> |"
     ++ line_break ++ spaces 20
     ++ "Label: <code>&lt;b&gt;x&lt;/b&gt;</code> |"
     ++ line_break ++ spaces 20 ++ "Hash: <code>a&amp;b</code>"
     ++ line_break ++ spaces 16 ++ "</div>"
     ++ line_break ++ spaces 12)%string.
Proof. reflexivity. Qed.

(** ** The sample fingerprinting script *)

Example btoa_known_values :
  btoa "Man" = "TWFu"%string /\ btoa "Ma" = "TWE="%string /\
  btoa "M" = "TQ=="%string /\ btoa "light work." = "bGlnaHQgd29yay4="%string.
Proof. repeat split; reflexivity. Qed.

Example hash_of_a_user_agent :
  createFingerprintHash "Mozilla/5.0 (X11; Linux x86_64)"
  = "eyJ1c2VyQWdlbnQiOiJNb3ppbGxhLzUu"%string.
Proof. reflexivity. Qed.

Lemma string_append_assoc (a b c : string) :
  ((a ++ b) ++ c = a ++ (b ++ c))%string.
Proof. induction a as [|x a IH]; [reflexivity|]. cbn. now rewrite IH. Qed.

Lemma string_length_app (a b : string) :
  String.length (a ++ b)%string = (String.length a + String.length b)%nat.
Proof. induction a as [|x a IH]; [reflexivity|]. cbn. now rewrite IH. Qed.

Lemma substring_of_prefix (a b : string) :
  substring 0 (String.length a) (a ++ b)%string = a.
Proof. induction a as [|x a IH]; cbn; [now destruct b | now rewrite IH]. Qed.

(** Whole blocks of three bytes are encoded on their own. *)
Lemma btoa_blocks k :
  forall x y, String.length x = (3 * k)%nat ->
              btoa (x ++ y)%string = (btoa x ++ btoa y)%string /\
              String.length (btoa x) = (4 * k)%nat.
Proof.
  induction k as [|k IH]; intros x y Hx.
  - destruct x; [split; reflexivity | discriminate].
  - destruct x as [|a [|b [|c x]]]; try (cbn in Hx; lia).
    destruct (IH x y) as [E L]; [cbn in Hx; lia|].
    split.
    + change (btoa (String a (String b (String c x)) ++ y)%string)
        with (let z := btoa (x ++ y)%string in
              String (base64_digit (N_of_ascii a / 4))
                (String (base64_digit ((N_of_ascii a mod 4) * 16 + N_of_ascii b / 16))
                   (String (base64_digit ((N_of_ascii b mod 16) * 4 + N_of_ascii c / 64))
                      (String (base64_digit (N_of_ascii c mod 64)) z)))).
      cbn zeta. rewrite E. reflexivity.
    + change (btoa (String a (String b (String c x))))
        with (String (base64_digit (N_of_ascii a / 4))
                (String (base64_digit ((N_of_ascii a mod 4) * 16 + N_of_ascii b / 16))
                   (String (base64_digit ((N_of_ascii b mod 16) * 4 + N_of_ascii c / 64))
                      (String (base64_digit (N_of_ascii c mod 64)) (btoa x))))).
      cbn [String.length]. rewrite L. lia.
Qed.

Lemma json_chars_app (a b : string) :
  json_chars (a ++ b)%string = (json_chars a ++ json_chars b)%string.
Proof.
  induction a as [|x a IH]; [reflexivity|]. cbn. now rewrite IH, string_append_assoc.
Qed.

Lemma json_chars_plain (s : string) : all_plain s = true -> json_chars s = s.
Proof.
  induction s as [|c s IH]; [reflexivity|]. cbn [all_plain json_chars].
  intros H. apply andb_true_iff in H as [Hc Hs]. rewrite (IH Hs).
  unfold plain in Hc. apply andb_true_iff in Hc as [Hc H32].
  apply andb_true_iff in Hc as [H34 H92].
  apply negb_true_iff in H34, H92, H32. apply N.ltb_ge in H32.
  unfold json_char. rewrite H34, H92.
  repeat match goal with
         | |- context [(N_of_ascii c =? ?k)%N] =>
             destruct (N.eqb_spec (N_of_ascii c) k); [lia|]
         end.
  destruct (N.ltb_spec (N_of_ascii c) 32); [lia | reflexivity].
Qed.

(** X23.  The sample script cannot tell browsers apart.  The hash it returns
    is the Base64 text of the first 24 bytes of [{"userAgent":"..."}], that
    is, of the fixed 14 bytes in front and the first 10 characters of the
    user agent: two browsers whose user agents share their first 10
    characters (written without escapes) get the same hash. *)
Theorem user_agents_sharing_ten_characters_share_the_hash
        (prefix rest other : string) :
  String.length prefix = 10%nat ->
  all_plain prefix = true ->
  createFingerprintHash (prefix ++ rest)
  = btoa ("{" ++ double_quote ++ "userAgent" ++ double_quote ++ ":"
          ++ double_quote ++ prefix)%string /\
  createFingerprintHash (prefix ++ rest) = createFingerprintHash (prefix ++ other).
Proof.
  intros Hlen Hplain.
  assert (H : forall tail,
             createFingerprintHash (prefix ++ tail)
             = btoa ("{" ++ double_quote ++ "userAgent" ++ double_quote ++ ":"
                     ++ double_quote ++ prefix)%string).
  { intros tail. unfold createFingerprintHash, fingerprint_json.
    rewrite json_chars_app, (json_chars_plain prefix Hplain).
    set (head := ("{" ++ double_quote ++ "userAgent" ++ double_quote ++ ":"
                  ++ double_quote ++ prefix)%string).
    set (after := (json_chars tail ++ double_quote ++ "}")%string).
    assert (E : ("{" ++ double_quote ++ "userAgent" ++ double_quote ++ ":"
                 ++ double_quote ++ (prefix ++ json_chars tail) ++ double_quote ++ "}")%string
                = (head ++ after)%string).
    { unfold head, after. cbn. now rewrite string_append_assoc. }
    rewrite E.
    assert (L : String.length head = (3 * 8)%nat).
    { unfold head. cbn. rewrite Hlen. reflexivity. }
    destruct (btoa_blocks 8 head after L) as [-> L'].
    change 32%nat with (4 * 8)%nat. rewrite <- L'. apply substring_of_prefix. }
  split; [apply H | now rewrite !H].
Qed.

Lemma user_agents_sharing_ten_characters_share_the_hash_witness :
  createFingerprintHash "Mozilla/5.0 (Windows NT 10.0; Win64; x64) Chrome/120.0"
  = createFingerprintHash "Mozilla/5.0 (iPhone; CPU iPhone OS 17_0) Safari/604.1".
Proof.
  apply (proj2 (user_agents_sharing_ten_characters_share_the_hash
                  "Mozilla/5."
                  "0 (Windows NT 10.0; Win64; x64) Chrome/120.0"
                  "0 (iPhone; CPU iPhone OS 17_0) Safari/604.1"
                  eq_refl eq_refl)).
Defined.

(** ** The sample post-processing script *)

(** X24.  [postProcess] never prints its closing line, and cleans up only
    after a successful send.  Whatever the globals and the server's answer,
    '[PostProcess] Done.' is not among the outputs, because [console.log] has
    been replaced before it is called.  When the send fails the error is
    thrown on and the globals are left exactly as they were; when it
    succeeds both console functions are silenced and [ENDPOINT], if it can be
    deleted, is gone. *)
Theorem postProcess_cleans_up_only_after_a_successful_send
        (g : globals) (answer : option response) (fingerprint : value) :
  let '(g', out, result) := postProcess g answer fingerprint in
  ~ In (Logged "[PostProcess] Done.") out /\
  match result with
  | Thrown e => g' = g
  | Done _ =>
      console_log_on g' = false /\ console_error_on g' = false /\
      ENDPOINT g' = (if endpoint_configurable g then VUndefined else ENDPOINT g) /\
      exists r, answer = Some r /\ ok r = true
  | Stuck => False
  end.
Proof.
  unfold postProcess, sendFingerprint, console_log, console_error.
  destruct answer as [[[] ? ? [j|]]|]; cbn [ok json negb];
    destruct (console_log_on g), (console_error_on g),
             (endpoint_configurable g); cbn;
    (split; [intuition discriminate | eauto 10]).
Qed.

(** X25.  [postProcess] works once.  After one successful call on a page
    whose [ENDPOINT] can be deleted, a second call posts to the URL
    [undefined] and prints nothing at all, whether its own send succeeds or
    fails: its only output is that request, with the order id taken from
    [ORDER_ID] or ['unknown'] when that is falsy. *)
Theorem postProcess_works_once
        (g : globals) (first : response) (body : value)
        (second : option response) (fingerprint fingerprint' : value) :
  endpoint_configurable g = true ->
  ok first = true ->
  json first = Some body ->
  let g1 := fst (fst (postProcess g (Some first) fingerprint)) in
  snd (fst (postProcess g1 second fingerprint'))
  = [Posted VUndefined fingerprint'
            (if truthy (ORDER_ID g) then ORDER_ID g else VStr "unknown")].
Proof.
  intros Hc Hok Hj. cbn zeta.
  unfold postProcess at 2. unfold sendFingerprint. rewrite Hok, Hj, Hc. cbn.
  unfold postProcess, sendFingerprint, console_log, console_error. cbn.
  destruct second as [[[] ? ? [j|]]|]; cbn; reflexivity.
Qed.

Lemma postProcess_works_once_witness :
  let g := mkGlobals (VStr "https://example.test/collect") true (VNum 0) true true in
  let fine := mkResponse true 200 "" (Some (VObj [])) in
  let g1 := fst (fst (postProcess g (Some fine) (VStr "abc"))) in
  snd (fst (postProcess g1 (Some fine) (VStr "def")))
  = [Posted VUndefined (VStr "def") (VStr "unknown")].
Proof.
  cbn zeta.
  apply (postProcess_works_once
           (mkGlobals (VStr "https://example.test/collect") true (VNum 0) true true)
           (mkResponse true 200 "" (Some (VObj []))) (VObj [])
           (Some (mkResponse true 200 "" (Some (VObj []))))
           (VStr "abc") (VStr "def") eq_refl eq_refl eq_refl).
Defined.

(** ** From one stray message to a locked page *)

(** X26.  A POST that the server refuses.  When the sandbox call resolved
    but the server answers [/collect] with a response that is not [ok], the
    record has been sent, the submission ends unlocked with an error status,
    and the error is the one built from the answer: ['Unknown error'] when
    the body is not JSON, and the HTTP status when the JSON body is an object
    without a truthy [message]. *)
Theorem a_refused_post_ends_with_the_server_error
        (pg : page) (w : world) (d : dom)
        (script answer : response) (v : value) :
  isRunning pg = false ->
  valid_inputs pg = true ->
  script_response w = Some script -> ok script = true ->
  sandbox w (text script) = Resolved v ->
  collect_response w = Some answer -> ok answer = false ->
  In (PostCollect (trim (sessionIdInput pg)) (trim (deviceLabelInput pg)) v)
     (snd (handleSubmit pg w)) /\
  isRunning (fst (handleSubmit pg w)) = false /\
  status_shown (paint d (snd (handleSubmit pg w)))
  = Some (ErrorStatus (response_error answer), true) /\
  (json answer = None ->
   response_error answer = NewError (VStr "Unknown error")) /\
  (forall props, json answer = Some (VObj props) ->
                 truthy (lookup "message" props) = false ->
                 response_error answer = HttpError (status answer)).
Proof.
  unfold valid_inputs. intros Hrun Hvalid Hs Hok Hv Hc Hcok.
  apply andb_true_iff in Hvalid as [H1 H2]. apply negb_true_iff in H1, H2.
  unfold handleSubmit, validateInputs. rewrite Hrun, H1, H2.
  unfold submit_steps, fetchFingerprinterJs, submitFingerprint, hash_prefix, await.
  rewrite Hs. cbn. rewrite Hok. cbn. rewrite Hv. cbn. rewrite Hc. cbn.
  rewrite Hcok. cbn. repeat split; auto 10.
  - unfold response_error. now intros ->.
  - unfold response_error. intros props -> Hm. cbn. now rewrite Hm.
Qed.

Lemma a_refused_post_ends_with_the_server_error_witness :
  status_shown
    (paint (mkDom None "" None false "Submit Fingerprint" false "View Results" false)
           (snd (handleSubmit
                   (mkPage "session-1" "device-1" false)
                   (mkWorld (Some (mkResponse true 200 "script" None))
                            (fun _ => Resolved (VStr "abc"))
                            (Some (mkResponse false 422 ""
                                     (Some (VObj [("message", VStr "duplicate")]))))
                            None))))
  = Some (ErrorStatus (NewError (VStr "duplicate")), true).
Proof.
  apply (proj1 (proj2 (proj2
    (a_refused_post_ends_with_the_server_error
       (mkPage "session-1" "device-1" false)
       (mkWorld (Some (mkResponse true 200 "script" None))
                (fun _ => Resolved (VStr "abc"))
                (Some (mkResponse false 422 ""
                         (Some (VObj [("message", VStr "duplicate")]))))
                None)
       (mkDom None "" None false "Submit Fingerprint" false "View Results" false)
       (mkResponse true 200 "script" None)
       (mkResponse false 422 "" (Some (VObj [("message", VStr "duplicate")])))
       (VStr "abc") eq_refl eq_refl eq_refl eq_refl eq_refl eq_refl eq_refl)))).
Defined.

(** X27.  One stray message disables the page.  Let the sandbox of the page
    be the one of [executeInSandbox], with the events of the visit, and let
    the first message of the iframe arrive before the deadline without being
    a result message.  Then a click on the submit button fetches the script,
    starts the run and never comes back: [isRunning] stays true, the button
    stays disabled, and no later click or key press starts a submission
    again. *)
Theorem a_stray_message_locks_the_page
        (pg : page) (d : dom) (w : world) (script : response)
        (t0 : Z) (store : list (nat * string))
        (evs rest : list event) (m : event)
        (later : list (ui_event * world)) :
  isRunning pg = false ->
  valid_inputs pg = true ->
  script_response w = Some script -> ok script = true ->
  sandbox w = (fun js => final_outcome t0 store js evs) ->
  chronological evs ->
  filter from_sandbox evs = m :: rest ->
  at_time m < t0 + timeout_delay ->
  recognised (data m) = false ->
  let st := fst (visit (pg, d) [(ClickSubmit, w)]) in
  isRunning (fst st) = true /\
  submit_disabled (snd st) = true /\
  filter is_submit_request (snd (visit st later)) = [].
Proof.
  intros Hrun Hvalid Hs Hok Hsb Hchr Hf Hdue Hrec. cbn zeta.
  assert (Hpending : sandbox w (text script) = Pending).
  { rewrite Hsb. apply hang_characterisation; [exact Hchr|].
    exists m, rest. auto. }
  assert (Hsticks : sticks w = true).
  { unfold sticks. now rewrite Hs, Hok, Hpending. }
  destruct (submission_lock pg w d Hrun Hvalid) as (Hpage & Hbutton & _).
  rewrite Hsticks in Hpage, Hbutton.
  cbn [visit on_event].
  destruct (handleSubmit pg w) as [pg' log] eqn:E. cbn [fst snd] in *.
  subst pg'. repeat split; auto.
  apply locked_visit. reflexivity.
Qed.

Lemma a_stray_message_locks_the_page_witness :
  let d := mkDom None "" None false "Submit Fingerprint" false "View Results" false in
  let evs := [Message 100 SandboxWindow (VStr "ready")] in
  let w := mkWorld (Some (mkResponse true 200 "script" None))
                   (fun js => final_outcome 0 [] js evs)
                   (Some (mkResponse true 200 "" (Some (VObj [])))) None in
  let st := fst (visit (mkPage "session-1" "device-1" false, d) [(ClickSubmit, w)]) in
  isRunning (fst st) = true /\
  submit_disabled (snd st) = true /\
  filter is_submit_request (snd (visit st [(ClickSubmit, w)])) = [].
Proof.
  cbn zeta.
  apply (a_stray_message_locks_the_page
           (mkPage "session-1" "device-1" false)
           (mkDom None "" None false "Submit Fingerprint" false "View Results" false)
           (mkWorld (Some (mkResponse true 200 "script" None))
                    (fun js => final_outcome 0 [] js
                                 [Message 100 SandboxWindow (VStr "ready")])
                    (Some (mkResponse true 200 "" (Some (VObj [])))) None)
           (mkResponse true 200 "script" None) 0 []
           [Message 100 SandboxWindow (VStr "ready")] []
           (Message 100 SandboxWindow (VStr "ready"))
           [(ClickSubmit,
             mkWorld (Some (mkResponse true 200 "script" None))
                     (fun js => final_outcome 0 []js
                                  [Message 100 SandboxWindow (VStr "ready")])
                     (Some (mkResponse true 200 "" (Some (VObj [])))) None)]);
    try reflexivity.
  repeat constructor.
Defined.

(** ** The entry point, the deadline and the inputs *)

(** C6 (the code at the failing input).  On the standard browser the guards
    leave [window.parent] null.  The empty script, which defines no entry
    point, and the script whose entry point fulfils with the number 42 then
    get no message out: the call is still pending after 4999 ms and is
    rejected with the timeout error from 5000 ms on, not with the message of
    the failed check.  Where the assignment to [window.parent] is ignored,
    the same two scripts are reported with the two messages the template
    holds for them. *)
Theorem missing_entry_point_ends_on_the_timeout
        (store : list (nat * string)) (n : nat) :
  let none := mkScript true [] None in
  let number := mkScript true [] (Some (CallReturns (Promise (Fulfils (VNum 42))))) in
  parent_ref (guards standard_platform fresh_realm) = None /\
  sandbox_posts standard_platform none = [] /\
  sandbox_posts standard_platform number = [] /\
  delivers standard_platform none [] /\
  promise (state_at 4999 (executeInSandbox 0 store "") []) = Pending /\
  promise (state_at (5000 + Z.of_nat n) (executeInSandbox 0 store "") [])
  = Rejected (NewError (VStr timeout_message)) /\
  sandbox_posts readonly_platform none = [error_message (VStr entry_point_message)] /\
  sandbox_posts readonly_platform number = [error_message (VStr result_type_message)].
Proof.
  cbn zeta. repeat split; try reflexivity.
  rewrite timeline_without_sandbox_message by reflexivity.
  destruct (Z.ltb_spec (5000 + Z.of_nat n) (0 + timeout_delay)); [|reflexivity].
  unfold timeout_delay in *. lia.
Qed.

(** C7 (as amended).  The timer is armed for 5000 ms after the call.  In
    every run in which no message of the iframe's window reaches the host
    before that deadline, whatever other windows send, the run is untouched
    at every earlier time (promise pending, timer armed, listener
    installed), and from the deadline on the promise is rejected with
    [Error('Script execution timed out (5s limit)')] and no timer is left. *)
Theorem timeout_fires_at_the_deadline
        (t0 : Z) (store : list (nat * string)) (js : string)
        (evs : list event) (T : Z) :
  Forall (fun e => from_sandbox e = true -> t0 + 5000 <= at_time e) evs ->
  timeout_delay = 5000 /\
  timeoutId (executeInSandbox t0 store js) = Armed (t0 + 5000) /\
  (T < t0 + 5000 ->
   state_at T (executeInSandbox t0 store js) evs = executeInSandbox t0 store js) /\
  (t0 + 5000 <= T ->
   promise (state_at T (executeInSandbox t0 store js) evs)
   = Rejected (NewError (VStr timeout_message)) /\
   is_armed (timeoutId (state_at T (executeInSandbox t0 store js) evs)) = false).
Proof.
  intros Hlate. split; [reflexivity|]. split; [reflexivity|]. split.
  - intros HT. unfold state_at. rewrite foreign_run.
    + apply advance_idle. cbn. intros due E. injection E as <-.
      unfold timeout_delay. lia.
    + rewrite Forall_forall in *. intros e He.
      apply filter_In in He as [He Ht]. apply Z.leb_le in Ht.
      split; [|exact Ht]. destruct (from_sandbox e) eqn:F; [|reflexivity].
      specialize (Hlate e He F). lia.
  - intros HT.
    pose proof (timeline_with_late_messages t0 store js evs T Hlate) as Hp.
    destruct (Z.ltb_spec T (t0 + timeout_delay)) as [Hlt|_];
      [unfold timeout_delay in Hlt; lia|].
    split; [exact Hp|].
    unfold state_at in *.
    destruct (timer_spent_advance _ T
                (timer_spent_run (executeInSandbox t0 store js)
                   (filter (fun e => at_time e <=? T) evs) (or_introl eq_refl)))
      as [Hpend|Ha]; [|exact Ha].
    rewrite Hp in Hpend. discriminate.
Qed.

Lemma timeout_fires_at_the_deadline_witness :
  let evs := [Message 4000 (OtherWindow 3) (hash_message (VStr "forged"));
              Message 5000 SandboxWindow (hash_message (VStr "late"))] in
  state_at 4999 (executeInSandbox 0 [] "js") evs = executeInSandbox 0 [] "js" /\
  promise (state_at 5000 (executeInSandbox 0 [] "js") evs)
  = Rejected (NewError (VStr timeout_message)).
Proof.
  cbn zeta.
  assert (H : Forall (fun e => from_sandbox e = true -> 0 + 5000 <= at_time e)
                [Message 4000 (OtherWindow 3) (hash_message (VStr "forged"));
                 Message 5000 SandboxWindow (hash_message (VStr "late"))]).
  { repeat constructor; cbn; intros; try discriminate; lia. }
  split.
  - apply (proj1 (proj2 (proj2 (timeout_fires_at_the_deadline 0 [] "js" _ 4999 H)))).
    lia.
  - apply (proj2 (proj2 (proj2 (timeout_fires_at_the_deadline 0 [] "js" _ 5000 H)))).
    lia.
Defined.

(** C8 (as amended).  When the session id or the device label is empty, a
    submit attempt leaves the page as it was and makes no request at all
    (the script is not fetched, the sandbox not run, nothing posted to
    [/collect]).  If no submission is running it shows exactly one error
    status, the session id's message if the session id is blank and the
    device label's otherwise; if a submission is running it shows nothing. *)
Theorem empty_input_stops_the_submission (pg : page) (w : world) :
  sessionIdInput pg = ""%string \/ deviceLabelInput pg = ""%string ->
  fst (handleSubmit pg w) = pg /\
  filter is_request (snd (handleSubmit pg w)) = [] /\
  snd (handleSubmit pg w)
  = if isRunning pg then []
    else if is_empty (trim (sessionIdInput pg))
         then [ShowStatus PleaseEnterSessionId true]
         else [ShowStatus PleaseEnterDeviceLabel true].
Proof.
  intros H. unfold handleSubmit, validateInputs.
  destruct (isRunning pg); [auto|].
  destruct H as [-> | ->]; cbn.
  - auto.
  - destruct (is_empty (trim (sessionIdInput pg))); auto.
Qed.

Lemma empty_input_stops_the_submission_witness :
  handleSubmit (mkPage "session-1" "" false)
               (mkWorld None (fun _ => Resolved (VStr "abc")) None None)
  = (mkPage "session-1" "" false, [ShowStatus PleaseEnterDeviceLabel true]).
Proof.
  destruct (empty_input_stops_the_submission
              (mkPage "session-1" "" false)
              (mkWorld None (fun _ => Resolved (VStr "abc")) None None)
              (or_intror eq_refl)) as (Hpage & _ & Hlog).
  rewrite (surjective_pairing (handleSubmit _ _)), Hpage, Hlog. reflexivity.
Defined.

(** C8 (counterexample).  An attempt with both fields empty, made while a
    submission is running (an Enter key in one of the inputs), returns at
    the guard of line 240: no status is shown, no error is raised. *)
Lemma a_running_submission_swallows_the_validation_error :
  handleSubmit (mkPage "" "" true)
               (mkWorld (Some (mkResponse true 200 "script" None))
                        (fun _ => Resolved (VStr "abc"))
                        (Some (mkResponse true 200 "" (Some (VObj [])))) None)
  = (mkPage "" "" true, []).
Proof. reflexivity. Qed.

Lemma all_white_space_app (a b : string) :
  all_white_space (a ++ b)%string = all_white_space a && all_white_space b.
Proof.
  induction a as [|c a IH]; [reflexivity|]. cbn. now rewrite IH, andb_assoc.
Qed.

Lemma trim_empty_iff (s : string) :
  trim s = ""%string <-> all_white_space s = true.
Proof.
  split; [|apply trim_white_space].
  intros E. destruct (trim_spec s) as (lead & trail & Hs & Hl & Ht & _).
  rewrite E in Hs. rewrite Hs, all_white_space_app. cbn. now rewrite Hl, Ht.
Qed.

Lemma not_blank (s : string) :
  all_white_space s = false -> is_empty (trim s) = false.
Proof.
  intros H. unfold is_empty. destruct (String.eqb_spec (trim s) ""); [|reflexivity].
  apply trim_empty_iff in e. congruence.
Qed.

Lemma is_white_space_spec (c : ascii) :
  is_white_space c = true <-> In (nat_of_ascii c) [9; 10; 11; 12; 13; 32; 160]%nat.
Proof.
  unfold is_white_space. cbn [In]. rewrite !orb_true_iff, !Nat.eqb_eq.
  intuition congruence.
Qed.

(** C10.  [handleSubmit] and [handleResults] work on the trimmed inputs.
    White space is TAB, LF, VT, FF, CR, SPACE and NO-BREAK SPACE; [trim]
    removes exactly a leading and a trailing run of it and gives the empty
    string exactly for an input of white space only.  Such an input is
    treated as empty: no request is made and the validation message is
    shown.  Inputs that are not blank go through: a submission whose script
    is fetched and whose sandbox call resolves posts the record with the
    trimmed session id and device label, and a results query asks for the
    trimmed session id; no request ever carries another value of these
    fields. *)
Theorem inputs_are_trimmed_before_use (pg : page) (w : world) :
  let sid := trim (sessionIdInput pg) in
  let label := trim (deviceLabelInput pg) in
  (forall c, is_white_space c = true
             <-> In (nat_of_ascii c) [9; 10; 11; 12; 13; 32; 160]%nat) /\
  (exists lead trail,
      sessionIdInput pg = (lead ++ sid ++ trail)%string /\
      all_white_space lead = true /\ all_white_space trail = true /\
      starts_clean sid = true /\ ends_clean sid = true) /\
  (exists lead trail,
      deviceLabelInput pg = (lead ++ label ++ trail)%string /\
      all_white_space lead = true /\ all_white_space trail = true /\
      starts_clean label = true /\ ends_clean label = true) /\
  (sid = ""%string <-> all_white_space (sessionIdInput pg) = true) /\
  (label = ""%string <-> all_white_space (deviceLabelInput pg) = true) /\
  (all_white_space (sessionIdInput pg) = true ->
   filter is_request (snd (handleSubmit pg w)) = [] /\
   (isRunning pg = false ->
    snd (handleSubmit pg w) = [ShowStatus PleaseEnterSessionId true]) /\
   handleResults pg w = [ShowStatus PleaseEnterSessionIdFirst true]) /\
  (all_white_space (deviceLabelInput pg) = true ->
   filter is_request (snd (handleSubmit pg w)) = [] /\
   (isRunning pg = false -> all_white_space (sessionIdInput pg) = false ->
    snd (handleSubmit pg w) = [ShowStatus PleaseEnterDeviceLabel true])) /\
  (isRunning pg = false ->
   all_white_space (sessionIdInput pg) = false ->
   all_white_space (deviceLabelInput pg) = false ->
   validateInputs pg = ([], Some (mkInputs sid label)) /\
   forall r v, script_response w = Some r -> ok r = true ->
               sandbox w (text r) = Resolved v ->
               filter is_request (snd (handleSubmit pg w))
               = [FetchScript; RunSandbox (text r); PostCollect sid label v]) /\
  (all_white_space (sessionIdInput pg) = false ->
   filter is_request (handleResults pg w) = [GetResults sid]) /\
  Forall (sends_trimmed pg) (snd (handleSubmit pg w)) /\
  Forall (sends_trimmed pg) (handleResults pg w).
Proof.
  cbn zeta.
  split; [exact is_white_space_spec|].
  split; [apply trim_spec|]. split; [apply trim_spec|].
  split; [apply trim_empty_iff|]. split; [apply trim_empty_iff|].
  split; [|split; [|split; [|split; [|split]]]].
  - intros H. apply trim_white_space in H.
    assert (E : validateInputs pg = ([ShowStatus PleaseEnterSessionId true], None))
      by (unfold validateInputs; now rewrite H).
    destruct (invalid_inputs_stop_submit pg w _ E) as (_ & H2 & H3).
    repeat split; auto. unfold handleResults. now rewrite H.
  - intros H. apply trim_white_space in H. split.
    + assert (E : exists shown, validateInputs pg = (shown, None)).
      { unfold validateInputs. rewrite H.
        destruct (is_empty (trim (sessionIdInput pg))); eexists; reflexivity. }
      destruct E as [shown E].
      now destruct (invalid_inputs_stop_submit pg w _ E) as (_ & H2 & _).
    + intros Hrun Hsid. apply not_blank in Hsid.
      unfold handleSubmit, validateInputs. now rewrite Hrun, Hsid, H.
  - intros Hrun Hsid Hlabel. apply not_blank in Hsid, Hlabel.
    split; [unfold validateInputs; now rewrite Hsid, Hlabel|].
    intros r v Hr Hok Hv.
    unfold handleSubmit, validateInputs. rewrite Hrun, Hsid, Hlabel.
    unfold submit_steps, fetchFingerprinterJs, submitFingerprint, hash_prefix, await.
    rewrite Hr. cbn. rewrite Hok. cbn. rewrite Hv. cbn.
    destruct v; cbn;
      destruct (collect_response w) as [[[] ? ? []]|]; reflexivity.
  - intros Hsid. apply not_blank in Hsid.
    unfold handleResults. rewrite Hsid.
    unfold results_steps, fetchResults, displayResults.
    destruct (results_response w) as [[[] ? ? [body|]]|]; cbn; auto.
    destruct (nullish body); cbn; auto.
    destruct (nullish (get body "data")); cbn; auto.
    destruct (nullish (get (get body "data") "breakdown")); cbn; auto.
  - apply handleSubmit_sends_trimmed.
  - apply handleResults_sends_trimmed.
Qed.

(** ** An error report with a falsy error *)


